(** * spotdl.download.ffmpeg: version check and conversion driver

    A shallow embedding of [src/spotdl/download/ffmpeg.py] and the
    properties of its two functions, [has_correct_version] and [convert].

    Python [str] values are Rocq strings whose characters stand for the code
    points U+0000..U+00FF; the character classes of [re] and of [float] are
    given on that range exactly as CPython defines them.  [bytes] values are
    Rocq strings as well, one character per byte. *)

From Stdlib Require Import Bool List String Ascii ZArith Lia.
From Stdlib Require Import DecimalString ZifyBool SpecFloat.
Import ListNotations.

Local Open Scope string_scope.
Local Open Scope Z_scope.

Set Implicit Arguments.

(** ** Characters and character classes *)

Module Chars.

Definition code (c : ascii) : Z := Z.of_N (N_of_ascii c).

Definition between (lo hi : Z) (c : ascii) : bool :=
  (lo <=? code c) && (code c <=? hi).

(** [\d] : the decimal digits (category Nd); below U+0100 these are 0-9. *)
Definition is_digit (c : ascii) : bool := between 48 57 c.

(** [[a-zA-Z]] *)
Definition is_ascii_letter (c : ascii) : bool :=
  between 65 90 c || between 97 122 c.

(** [\w] : alphanumeric code points and the underscore.  Above U+007F the
    alphanumeric code points of the range are the letters and the numeric
    signs of the Latin-1 supplement. *)
Definition is_word (c : ascii) : bool :=
  is_digit c || is_ascii_letter c || (code c =? 95)
  || (code c =? 170) || (code c =? 178) || (code c =? 179) || (code c =? 181)
  || (code c =? 185) || (code c =? 186) || between 188 190 c
  || between 192 214 c || between 216 246 c || between 248 255 c.

(** White space that [float] ignores around a number. *)
Definition is_float_space (c : ascii) : bool :=
  between 9 13 c || (code c =? 32) || (code c =? 133) || (code c =? 160).

Definition digit_value (c : ascii) : Z := code c - 48.

End Chars.

(** ** Strings *)

Module Str.

(** [bool(s)] *)
Definition nonempty (s : string) : bool :=
  match s with EmptyString => false | String _ _ => true end.

Fixpoint all (p : ascii -> bool) (s : string) : bool :=
  match s with
  | EmptyString => true
  | String c s' => p c && all p s'
  end.

(** [s.startswith(pre)], returning what follows the prefix. *)
Fixpoint strip_prefix (pre s : string) : option string :=
  match pre, s with
  | EmptyString, _ => Some s
  | String a pre', String b s' =>
      if Ascii.eqb a b then strip_prefix pre' s' else None
  | String _ _, EmptyString => None
  end.

Definition startswith (s pre : string) : bool :=
  match strip_prefix pre s with Some _ => true | None => false end.

Fixpoint rev (s : string) : string :=
  match s with
  | EmptyString => EmptyString
  | String c s' => rev s' ++ String c EmptyString
  end.

(** [s.endswith(suf)] *)
Definition endswith (s suf : string) : bool := startswith (rev s) (rev suf).

(** [needle in hay] *)
Fixpoint contains (hay needle : string) : bool :=
  startswith hay needle ||
  match hay with
  | EmptyString => false
  | String _ hay' => contains hay' needle
  end.

(** [sep.join(parts)] *)
Definition join (sep : string) (parts : list string) : string :=
  String.concat sep parts.

(** [str(n)] for an [int]. *)
Definition of_int (n : Z) : string := NilZero.string_of_int (Z.to_int n).

Fixpoint drop_while (p : ascii -> bool) (s : string) : string :=
  match s with
  | EmptyString => EmptyString
  | String c s' => if p c then drop_while p s' else s
  end.

(** [s.strip()] for the characters of class [p]. *)
Definition strip (p : ascii -> bool) (s : string) : string :=
  rev (drop_while p (rev (drop_while p s))).

End Str.

(** ** Regular expressions

    The fragment of [re] that the source uses, with the backtracking
    semantics of the module: alternatives are tried greedily, the first
    successful one wins, and [search] reports the leftmost match. *)

Module Re.

Inductive regex : Type :=
| Lit (s : string)                (* literal text *)
| Cls (p : ascii -> bool)         (* one character of a class *)
| Cat (r1 r2 : regex)             (* r1 r2 *)
| Opt (r : regex)                 (* r? *)
| Plus (p : ascii -> bool).       (* c+ for a class c *)

(** [c+] against [s]: one character at least, as many as possible, giving
    characters back one at a time while the rest [k] of the pattern fails. *)
Fixpoint plus_from (p : ascii -> bool) (s : string)
    (k : string -> option string) : option string :=
  match s with
  | EmptyString => None
  | String c s' =>
      if p c then
        match plus_from p s' k with
        | Some g => Some (String c g)
        | None => option_map (String c) (k s')
        end
      else None
  end.

(** [match_here r s k] matches [r] at the start of [s] and then the rest of
    the pattern, [k], on what is left; the result is the text consumed. *)
Fixpoint match_here (r : regex) (s : string)
    (k : string -> option string) : option string :=
  match r with
  | Lit l =>
      match Str.strip_prefix l s with
      | Some s' => option_map (append l) (k s')
      | None => None
      end
  | Cls p =>
      match s with
      | String c s' => if p c then option_map (String c) (k s') else None
      | EmptyString => None
      end
  | Cat r1 r2 => match_here r1 s (fun s' => match_here r2 s' k)
  | Opt r1 =>
      match match_here r1 s k with
      | Some g => Some g
      | None => k s
      end
  | Plus p => plus_from p s k
  end.

Definition match_at (r : regex) (s : string) : option string :=
  match_here r s (fun _ => Some EmptyString).

(** [re.search(r, s)]: [group(0)] of the leftmost match, if any. *)
Fixpoint search (r : regex) (s : string) : option string :=
  match match_at r s with
  | Some g => Some g
  | None =>
      match s with
      | EmptyString => None
      | String _ s' => search r s'
      end
  end.

(** [re.sub(c, repl, s)] for a pattern [c] that is a single class. *)
Fixpoint sub_class (p : ascii -> bool) (repl s : string) : string :=
  match s with
  | EmptyString => EmptyString
  | String c s' =>
      (if p c then repl else String c EmptyString) ++ sub_class p repl s'
  end.

End Re.

Import Chars.

(** r"(\d+\.)?(\d+)", the tail of the version pattern *)
Definition number_re : Re.regex :=
  Re.Cat (Re.Opt (Re.Cat (Re.Plus is_digit) (Re.Lit "."))) (Re.Plus is_digit).

(** r"ffmpeg version \w?(\d+\.)?(\d+)" *)
Definition version_re : Re.regex :=
  Re.Cat (Re.Lit "ffmpeg version ")
    (Re.Cat (Re.Opt (Re.Cls is_word)) number_re).

(** r"Copyright \(c\) \d\d\d\d\-202\d" *)
Definition copyright_re : Re.regex :=
  Re.Cat (Re.Lit "Copyright (c) ")
    (Re.Cat (Re.Cls is_digit) (Re.Cat (Re.Cls is_digit)
      (Re.Cat (Re.Cls is_digit) (Re.Cat (Re.Cls is_digit)
        (Re.Cat (Re.Lit "-202") (Re.Cls is_digit)))))).

(** ** Floating point

    [float(s)] yields the binary64 number nearest to the decimal that [s]
    denotes (ties to the even significand), and [<] compares two such
    numbers exactly.  A finite number is kept as the pair of its significand
    and exponent, [m * 2^e]. *)

Module F64.

Inductive binary64 : Type :=
| Finite (m e : Z)
| PosInf
| NegInf.

(** [p / q] rounded to the nearest integer, ties to even ([0 <= p], [0 < q]). *)
Definition rne (p q : Z) : Z :=
  let n := p / q in
  match 2 * (p mod q) ?= q with
  | Lt => n
  | Gt => n + 1
  | Eq => if Z.even n then n else n + 1
  end.

(** [floor (log2 (p / q))] for positive [p] and [q]. *)
Definition binade (p q : Z) : Z :=
  let d := Z.log2 p - Z.log2 q in
  if (if 0 <=? d then q * 2 ^ d <=? p else q <=? p * 2 ^ (- d))
  then d else d - 1.

(** [p / (q * 2^e)] rounded to an integer. *)
Definition scaled_rne (p q e : Z) : Z :=
  if 0 <=? e then rne p (q * 2 ^ e) else rne (p * 2 ^ (- e)) q.

Definition prec : Z := 53.
Definition emin : Z := -1074.
Definition emax : Z := 1024.

(** The binary64 number nearest to [p / q] ([0 <= p], [0 < q]): 53 significant
    bits, no exponent below [emin], infinity from [2^emax] on. *)
Definition of_ratio (p q : Z) : binary64 :=
  if p =? 0 then Finite 0 0
  else
    let e := Z.max (binade p q - (prec - 1)) emin in
    let m := scaled_rne p q e in
    if 2 ^ emax <=? m * 2 ^ e then PosInf else Finite m e.

Definition neg (x : binary64) : binary64 :=
  match x with
  | Finite m e => Finite (- m) e
  | PosInf => NegInf
  | NegInf => PosInf
  end.

(** [x < y] *)
Definition lt (x y : binary64) : bool :=
  match x, y with
  | Finite m1 e1, Finite m2 e2 =>
      let e := Z.min e1 e2 in
      m1 * 2 ^ (e1 - e) <? m2 * 2 ^ (e2 - e)
  | NegInf, NegInf => false
  | NegInf, _ => true
  | _, NegInf => false
  | PosInf, _ => false
  | Finite _ _, PosInf => true
  end.

(** The value of a string of decimal digits. *)
Fixpoint digits_from (acc : Z) (s : string) : Z :=
  match s with
  | EmptyString => acc
  | String c s' => digits_from (10 * acc + digit_value c) s'
  end.

Definition digits (s : string) : Z := digits_from 0 s.

Fixpoint span (p : ascii -> bool) (s : string) : string * string :=
  match s with
  | EmptyString => (EmptyString, EmptyString)
  | String c s' =>
      if p c then let '(a, b) := span p s' in (String c a, b)
      else (EmptyString, s)
  end.

Definition is_underscore (c : ascii) : bool := Ascii.eqb c "_".

(** An underscore is allowed between two digits only. *)
Fixpoint underscores_ok (after_digit : bool) (s : string) : bool :=
  match s with
  | EmptyString => true
  | String c s' =>
      if is_underscore c then
        after_digit
        && match s' with String d _ => is_digit d | EmptyString => false end
        && underscores_ok false s'
      else underscores_ok (is_digit c) s'
  end.

(** The decimal numbers [float] reads: an optional sign, then digits with
    an optional point ([12], [12.5], [12.], [.5]).  The result is the sign
    and the fraction [p / q].  Exponents, [inf] and [nan] are spelled with
    ASCII letters and are not part of this grammar. *)
Definition parse_decimal (s : string) : option (bool * Z * Z) :=
  let '(sign, u) :=
    match s with
    | String c r =>
        if Ascii.eqb c "+" then (false, r)
        else if Ascii.eqb c "-" then (true, r)
        else (false, s)
    | EmptyString => (false, s)
    end in
  let '(ip, r) := span is_digit u in
  match r with
  | EmptyString =>
      if Str.nonempty ip then Some (sign, digits ip, 1) else None
  | String c fp =>
      if Ascii.eqb c "."
         && Str.all is_digit fp && (Str.nonempty ip || Str.nonempty fp)
      then Some (sign, digits (ip ++ fp), 10 ^ Z.of_nat (String.length fp))
      else None
  end.

(** [float(s)] for a string [s] without ASCII letters; [None] is
    [ValueError]. *)
Definition of_str (s : string) : option binary64 :=
  let t := Str.strip is_float_space s in
  if underscores_ok false t then
    match parse_decimal (Re.sub_class is_underscore "" t) with
    | Some (sign, p, q) =>
        Some (if sign then neg (of_ratio p q) else of_ratio p q)
    | None => None
    end
  else None.

(** The literal [4.2] of the source. *)
Definition lit_4_2 : binary64 := of_ratio 42 10.

(** The same number in the Standard Library's IEEE 754 model. *)
Definition to_spec (x : binary64) : spec_float :=
  match x with
  | Finite Z0 _ => S754_zero false
  | Finite (Zpos m) e => S754_finite false m e
  | Finite (Zneg m) e => S754_finite true m e
  | PosInf => S754_infinity false
  | NegInf => S754_infinity true
  end.

(** Fractions on which the rounding is compared with the library's
    division: around 4.2, at both ends of the exponent range, and a few
    others. *)
Definition ratio_samples : list (positive * positive) :=
  [ (42, 10); (43, 10); (1, 10); (41999999999999999, 10 ^ 16);
    (41999999999999997, 10 ^ 16); (419999999999999973, 10 ^ 17);
    (1, 3); (2, 3); (123456789012345678901234567890, 7);
    (10 ^ 308, 1); (10 ^ 309, 1); (1, 10 ^ 331); (5, 10 ^ 324);
    (1, 3 * 10 ^ 310); (9007199254740993, 1); (9007199254740995, 2) ]%positive.

End F64.

(** ** Bytes *)

Module Bytes.

Definition quote1 : ascii := "'"%char.
Definition quote2 : ascii := "034"%char.
Definition backslash : ascii := "\"%char.
Definition tab : ascii := "009"%char.
Definition newline : ascii := "010"%char.
Definition creturn : ascii := "013"%char.

Fixpoint mem (c : ascii) (s : string) : bool :=
  match s with
  | EmptyString => false
  | String d s' => Ascii.eqb c d || mem c s'
  end.

Definition hex_digit (n : Z) : ascii :=
  ascii_of_N (Z.to_N (if n <? 10 then 48 + n else 87 + n)).

Definition str1 (c : ascii) : string := String c EmptyString.

(** One byte of a bytes literal delimited by [quote]. *)
Definition escape (quote c : ascii) : string :=
  if Ascii.eqb c quote || Ascii.eqb c backslash then String backslash (str1 c)
  else if Ascii.eqb c tab then "\t"
  else if Ascii.eqb c newline then "\n"
  else if Ascii.eqb c creturn then "\r"
  else if (code c <? 32) || (127 <=? code c)
  then "\x" ++ String (hex_digit (code c / 16)) (str1 (hex_digit (code c mod 16)))
  else str1 c.

Fixpoint escape_all (quote : ascii) (b : string) : string :=
  match b with
  | EmptyString => EmptyString
  | String c b' => escape quote c ++ escape_all quote b'
  end.

(** [str(b)] for a [bytes] object: its literal, [b'...'], in double quotes
    when the bytes hold a single quote and no double quote. *)
Definition repr (b : string) : string :=
  let quote := if mem quote1 b && negb (mem quote2 b) then quote2 else quote1 in
  "b" ++ String quote (escape_all quote b ++ str1 quote).

End Bytes.

(** ** Effects

    The functions start a process, write to [sys.stderr] and raise.  A
    computation yields the events it caused, in order, and either a value or
    the exception that left it. *)

Inductive exn : Type :=
| FileNotFoundError               (* these three are [OSError]s that a *)
| PermissionError                 (* start can raise by name, [OSError] *)
| NotADirectoryError              (* stands for any other of them *)
| OSError
| ValueError
| UnicodeDecodeError
| KeyError (key : string).

Inductive message : Type :=
| Text (s : string)
| TooOld (version : F64.binary64).
    (* f"Your FFmpeg installation is too old ({version}), please update to 4.2+\n" *)

Inductive event : Type :=
| Spawn (argv : list string)      (* a process is started with this argv *)
| Stderr (msg : message).         (* print(msg, file=sys.stderr) *)

Inductive result (A : Type) : Type :=
| Return (a : A)
| Raise (e : exn).

Arguments Return {A} a.
Arguments Raise {A} e.

Definition M (A : Type) : Type := list event * result A.

Definition ret {A} (a : A) : M A := ([], Return a).

Definition raise {A} (e : exn) : M A := ([], Raise e).

Definition bind {A B} (m : M A) (f : A -> M B) : M B :=
  match m with
  | (tr, Return a) => let '(tr', r) := f a in ((tr ++ tr')%list, r)
  | (tr, Raise e) => (tr, Raise e)
  end.

Notation "x <- m ;; k" := (bind m (fun x => k))
  (at level 61, m at next level, right associativity).
Notation "m ;;; k" := (bind m (fun _ => k))
  (at level 61, right associativity).

(** The body of a [try]: its outcome, for the [except] clauses to inspect. *)
Definition attempt {A} (m : M A) : M (result A) := (fst m, Return (snd m)).

Definition print_stderr (msg : message) : M unit := ([Stderr msg], Return tt).

Definition events {A} (m : M A) : list event := fst m.
Definition outcome {A} (m : M A) : result A := snd m.

Definition is_spawn (ev : event) : bool :=
  match ev with Spawn _ => true | Stderr _ => false end.

(** The processes a computation started. *)
Definition spawned {A} (m : M A) : list event := filter is_spawn (events m).

(** A process that ran to completion: what [communicate()] returns and the
    exit status. *)
Record completed : Type := Completed {
  stdout : string;
  stderr : string;
  returncode : Z
}.

(** What the host does with a request to run [argv]: the start raises
    (the tool is not found, may not be executed, the path is no path ...);
    or the process starts and [communicate()] raises (with [encoding] set,
    [UnicodeDecodeError] on output that is not UTF-8); or the process runs
    to completion. *)
Inductive host_run : Type :=
| Runs (p : completed)
| CommunicateFails (e : exn)
| StartFails (e : exn).

(** A started process: what its [communicate()] will give. *)
Definition process : Type := result completed.

(** [d[key]] on a [dict] given by its items. *)
Fixpoint dict_get {V} (d : list (string * V)) (key : string) : M V :=
  match d with
  | [] => raise (KeyError key)
  | (k, v) :: d' => if String.eqb key k then ret v else dict_get d' key
  end.

(** ** The module *)

Section Ffmpeg.

(** The host. *)
Variable os_exec : list string -> host_run.

(** [pathlib.Path] and [str(p.absolute())]. *)
Variable Path : Type.
Variable absolute : Path -> string.

(** [subprocess.Popen] / [asyncio.subprocess.create_subprocess_exec] *)
Definition create_subprocess (argv : list string) : M process :=
  ([Spawn argv],
   match os_exec argv with
   | Runs p => Return (Return p)
   | CommunicateFails e => Return (Raise e)
   | StartFails e => Raise e
   end).

(** [process.communicate()] *)
Definition communicate (process : process) : M completed := ([], process).

Definition float (s : string) : M F64.binary64 :=
  match F64.of_str s with
  | Some x => ret x
  | None => raise ValueError
  end.

Definition has_correct_version (skip_version_check : bool)
    (ffmpeg_path : string) : M bool :=
  r <- attempt (create_subprocess [ffmpeg_path; "-version"]) ;;
  match r with
  | Raise FileNotFoundError =>
      print_stderr (Text "FFmpeg was not found, spotDL cannot continue.") ;;;
      ret false
  | Raise e => raise e
  | Return process =>
      proc_out <- communicate process ;;
      let output := stdout proc_out ++ stderr proc_out in
      if skip_version_check then ret true
      else
        match Re.search version_re output with
        | Some version_str =>
            let version_str := Re.sub_class is_ascii_letter "" version_str in
            version <- float version_str ;;
            if F64.lt version F64.lit_4_2 then
              print_stderr (TooOld version) ;;;
              ret false
            else ret true
        | None =>
            match Re.search copyright_re output with
            | Some _ => ret true
            | None =>
                print_stderr (Text "Your FFmpeg version couldn't be detected") ;;;
                ret false
            end
        end
  end.

Definition nl : string := Bytes.str1 Bytes.newline.
Definition dq : string := Bytes.str1 Bytes.quote2.

Definition formats (downloaded_file_path : string)
    : list (string * list string) :=
  [ ("mp3", ["-codec:a"; "libmp3lame"]);
    ("flac", ["-codec:a"; "flac"]);
    ("ogg", ["-codec:a"; "libvorbis"]);
    ("opus", if Str.endswith downloaded_file_path ".opus"
             then ["-vn"; "-c:a"; "copy"]
             else ["-c:a"; "libopus"]);
    ("m4a", ["-codec:a"; "aac"; "-vn"]);
    ("wav", []) ].

Definition output_quality_command (output_format : option string)
    : list string :=
  match output_format with
  | Some f =>
      if String.eqb f "ogg" then ["-q:a"; "5"]
      else if String.eqb f "m4a" then []
      else ["-q:a"; "0"]
  | None => ["-q:a"; "0"]
  end.

Definition arguments (downloaded_file_path converted_file_path : string)
    (output_format_command output_quality_command : list string)
    : list string :=
  (["-i"; downloaded_file_path] ++ output_format_command
   ++ ["-abr"; "true"] ++ output_quality_command
   ++ ["-v"; "debug"; converted_file_path])%list.

Definition error_message (returncode : Z) (arguments : list string)
    (out : string) : string :=
  "ffmpeg returned an error (" ++ Str.of_int returncode ++ ")"
  ++ nl ++ "ffmpeg arguments: " ++ dq ++ Str.join " " arguments ++ dq
  ++ nl ++ "ffmpeg gave this output:"
  ++ nl ++ "=====" ++ nl
  ++ out
  ++ nl ++ "=====" ++ nl.

Definition convert (downloaded_file_path converted_file_path : Path)
    (ffmpeg_path output_format : option string) : M bool :=
  let downloaded_file_path := absolute downloaded_file_path in
  let converted_file_path := absolute converted_file_path in
  let formats := formats downloaded_file_path in
  output_format_command <-
    match output_format with
    | None => dict_get formats "mp3"
    | Some f => dict_get formats f
    end ;;
  let output_quality_command := output_quality_command output_format in
  let ffmpeg_path :=
    match ffmpeg_path with None => "ffmpeg" | Some p => p end in
  let arguments :=
    arguments downloaded_file_path converted_file_path
      output_format_command output_quality_command in
  process <- create_subprocess (ffmpeg_path :: arguments) ;;
  proc_out <- communicate process ;;
  let out :=
    if Str.nonempty (stdout proc_out) || Str.nonempty (stderr proc_out)
    then Bytes.repr (stdout proc_out ++ stderr proc_out)
    else "" in
  if negb (returncode proc_out =? 0) then
    print_stderr (Text (error_message (returncode proc_out) arguments out)) ;;;
    ret false
  else ret true.

End Ffmpeg.

(** ** Vocabulary of the specification *)

(** [x] occurs in [s]. *)
Definition occurs_in (x s : string) : Prop := exists a b, s = a ++ x ++ b.

(** [s] ends in [suf]. *)
Definition ends_in (s suf : string) : Prop := exists stem, s = stem ++ suf.

(** A numeric token: one decimal digit at least. *)
Definition numeric_token (s : string) : Prop :=
  Str.nonempty s = true /\ Str.all is_digit s = true.

(** An optional single letter. *)
Definition optional_letter (l : string) : Prop :=
  l = "" \/ exists c, l = String c "" /\ is_ascii_letter c = true.

(** The banner [ffmpeg version], an optional letter, [X.Y]. *)
Definition banner (l X Y : string) : string :=
  "ffmpeg version " ++ l ++ X ++ "." ++ Y.

(** The decimal [X.Y] as the fraction [decimal_num X Y / decimal_den Y]. *)
Definition decimal_num (X Y : string) : Z := F64.digits (X ++ Y).
Definition decimal_den (Y : string) : Z := 10 ^ Z.of_nat (String.length Y).

(** [X.Y >= 4.2] and [X.Y < 4.2] on exact decimals. *)
Definition at_least_4_2 (X Y : string) : Prop :=
  42 * decimal_den Y <= 10 * decimal_num X Y.
Definition below_4_2 (X Y : string) : Prop :=
  10 * decimal_num X Y < 42 * decimal_den Y.

(** The midpoint between the binary64 number nearest to 4.2 and the one
    before it is [midpoint_num / 2^51]. *)
Definition midpoint_num : Z := 9457559217478041.

(** [X.Y] lies above that midpoint. *)
Definition above_midpoint (X Y : string) : bool :=
  midpoint_num * decimal_den Y <? decimal_num X Y * 2 ^ 51.



(** The enumerated output formats and their names. *)
Inductive format : Type := Mp3 | Flac | Ogg | Opus | M4a | Wav.

Definition format_name (f : format) : string :=
  match f with
  | Mp3 => "mp3" | Flac => "flac" | Ogg => "ogg"
  | Opus => "opus" | M4a => "m4a" | Wav => "wav"
  end.

Definition format_names : list string := map format_name [Mp3; Flac; Ogg; Opus; M4a; Wav].

(** The format in force: the requested one, [mp3] when none is given. *)
Definition effective_format (requested : option format) : format :=
  match requested with Some f => f | None => Mp3 end.

(** The codec policy of the specification, one row per format. *)
Definition spec_codec_args (f : format) (source : string) : list string :=
  match f with
  | Mp3 => ["-codec:a"; "libmp3lame"]
  | Flac => ["-codec:a"; "flac"]
  | Ogg => ["-codec:a"; "libvorbis"]
  | Opus => if Str.endswith source ".opus"
            then ["-vn"; "-c:a"; "copy"]
            else ["-c:a"; "libopus"]
  | M4a => ["-codec:a"; "aac"; "-vn"]
  | Wav => []
  end.

Definition quality_level (n : string) : list string := ["-q:a"; n].

(** The quality policy of the specification. *)
Definition spec_quality_args (f : format) : list string :=
  match f with
  | Ogg => quality_level "5"
  | M4a => []
  | _ => quality_level "0"
  end.

(** The argument vector of the specification:
    [-i <source> <codec args> -abr true <quality args> -v debug <destination>]. *)
Definition spec_arguments (f : format) (source destination : string)
    : list string :=
  (["-i"; source] ++ spec_codec_args f source ++ ["-abr"; "true"]
   ++ spec_quality_args f ++ ["-v"; "debug"; destination])%list.

Definition tool_name (ffmpeg_path : option string) : string :=
  match ffmpeg_path with Some p => p | None => "ffmpeg" end.

(** What [convert] puts between the rules of its message: the literal of the
    captured bytes, or nothing when both streams are empty. *)
Definition diagnostic (p : completed) : string :=
  if Str.nonempty (stdout p) || Str.nonempty (stderr p)
  then Bytes.repr (stdout p ++ stderr p)
  else "".

(** A byte that its literal shows as it is (a sufficient condition):
    printable ASCII other than the single quote and the backslash. *)
Definition plain_byte (c : ascii) : bool :=
  between 32 126 c
  && negb (Ascii.eqb c Bytes.quote1) && negb (Ascii.eqb c Bytes.backslash).

(** The text written to [sys.stderr] by a computation. *)
Fixpoint stderr_text (tr : list event) : string :=
  match tr with
  | [] => ""
  | Stderr (Text s) :: tr' => s ++ stderr_text tr'
  | _ :: tr' => stderr_text tr'
  end.

(** A number as the version pattern matches it: digits, or digits, a point
    and digits. *)
Definition number_text (n : string) : Prop :=
  numeric_token n
  \/ exists X Y, n = X ++ "." ++ Y /\ numeric_token X /\ numeric_token Y.

(** The three messages of the version check. *)
Definition version_message (msg : message) : Prop :=
  msg = Text "FFmpeg was not found, spotDL cannot continue."
  \/ (exists version, msg = TooOld version)
  \/ msg = Text "Your FFmpeg version couldn't be detected".

(** ** Reading a bytes literal back *)

Module Unescape.
Import Bytes.

(** The value of a hexadecimal digit as [hex_digit] writes it. *)
Definition hex_value (c : ascii) : Z :=
  if is_digit c then code c - 48 else code c - 87.

(** The byte that a character after a backslash stands for. *)
Definition escaped (c : ascii) : ascii :=
  if Ascii.eqb c "t" then tab
  else if Ascii.eqb c "n" then newline
  else if Ascii.eqb c "r" then creturn
  else c.

(** The bytes that the inside of a literal stands for. *)
Fixpoint unescape (s : string) : string :=
  match s with
  | EmptyString => EmptyString
  | String c1 r1 =>
      if Ascii.eqb c1 backslash then
        match r1 with
        | EmptyString => EmptyString
        | String c2 r2 =>
            if Ascii.eqb c2 "x" then
              match r2 with
              | String h1 (String h2 r4) =>
                  String (ascii_of_N (Z.to_N (16 * hex_value h1 + hex_value h2)))
                    (unescape r4)
              | _ => EmptyString
              end
            else String (escaped c2) (unescape r2)
        end
      else String c1 (unescape r1)
  end.

End Unescape.

(** ** Sample hosts *)

(** No program can be started. *)
Definition os_missing : list string -> host_run :=
  fun _ => StartFails FileNotFoundError.

(** Every program is found, none may be executed. *)
Definition os_denied : list string -> host_run :=
  fun _ => StartFails PermissionError.

(** Every program runs and prints what is not UTF-8. *)
Definition os_garbled : list string -> host_run :=
  fun _ => CommunicateFails UnicodeDecodeError.

(** Every program runs, prints [out] and [err] and exits with [code]. *)
Definition os_fixed (out err : string) (code : Z)
    : list string -> host_run :=
  fun _ => Runs (Completed out err code).

(** Paths as strings, made absolute under [/music]. *)
Definition music_dir (p : string) : string :=
  if Str.startswith p "/" then p else "/music/" ++ p.

(** ** Proof automation *)

(** Runs [has_correct_version] up to the outcome [H] of its process start. *)
Ltac run_version_check H :=
  unfold has_correct_version, attempt, create_subprocess, communicate, bind,
    outcome, spawned, events;
  cbn [fst snd]; rewrite H; cbn [fst snd stdout stderr].

(** * Facts *)

Unset Implicit Arguments.

(** ** Rounding to binary64 *)

Module F64Facts.
Import F64.

Lemma rne_floor p q : 0 <= p -> 0 < q -> p / q <= rne p q.
Proof.
  intros Hp Hq. unfold rne.
  destruct (2 * (p mod q) ?= q); [destruct (Z.even (p / q))|..]; lia.
Qed.

Lemma rne_le_even p q t :
  0 <= p -> 0 < q -> Z.even t = true ->
  (rne p q <= t <-> 2 * p <= (2 * t + 1) * q).
Proof.
  intros Hp Hq Ht. unfold rne.
  pose proof (Z.div_mod p q ltac:(lia)) as E.
  pose proof (Z.mod_pos_bound p q Hq) as B.
  set (n := p / q) in *. set (r := p mod q) in *.
  destruct (Z.compare_spec (2 * r) q) as [C|C|C].
  - destruct (Z.even n) eqn:En.
    + split; intros; nia.
    + assert (n <> t) by (intros ->; congruence).
      split; intros; nia.
  - split; intros; nia.
  - split; intros; nia.
Qed.

Lemma pow2_pos x : 0 <= x -> 0 < 2 ^ x.
Proof. intros. apply Z.pow_pos_nonneg; lia. Qed.

Lemma pow2_ge1 x : 0 <= x -> 1 <= 2 ^ x.
Proof. intros. pose proof (pow2_pos _ H). lia. Qed.

Lemma pow2_mono x y : 0 <= x <= y -> 2 ^ x <= 2 ^ y.
Proof. intros. apply Z.pow_le_mono_r; lia. Qed.

Lemma pow2_split x y : 0 <= x -> 0 <= y -> 2 ^ (x + y) = 2 ^ x * 2 ^ y.
Proof. intros. apply Z.pow_add_r; lia. Qed.

(** [binade p q = b] brackets the ratio: [2^b <= p/q < 2^(b+1)]. *)
Lemma binade_lower p q :
  0 < p -> 0 < q ->
  let b := binade p q in
  if 0 <=? b then q * 2 ^ b <= p else q <= p * 2 ^ (- b).
Proof.
  intros Hp Hq. unfold binade.
  pose proof (Z.log2_spec p Hp) as [Lp Up].
  pose proof (Z.log2_spec q Hq) as [Lq Uq].
  pose proof (Z.log2_nonneg p) as Np. pose proof (Z.log2_nonneg q) as Nq.
  unfold Z.succ in Up, Uq.
  set (lp := Z.log2 p) in *. set (lq := Z.log2 q) in *.
  set (d := lp - lq).
  destruct (0 <=? d) eqn:Hd.
  - apply Z.leb_le in Hd.
    destruct (q * 2 ^ d <=? p) eqn:T; cbv zeta.
    + rewrite (proj2 (Z.leb_le 0 d) Hd). now apply Z.leb_le.
    + apply Z.leb_gt in T.
      destruct (0 <=? d - 1) eqn:Hd1.
      * apply Z.leb_le in Hd1.
        assert (2 ^ lp = 2 ^ (lq + 1) * 2 ^ (d - 1)).
        { rewrite <- pow2_split by lia. f_equal. lia. }
        pose proof (pow2_pos _ Hd1). nia.
      * apply Z.leb_gt in Hd1. assert (d = 0) by lia.
        replace (- (d - 1)) with 1 by lia.
        replace (lq + 1) with (lp + 1) in Uq by lia.
        rewrite pow2_split in Uq by lia. change (2 ^ 1) with 2 in *. lia.
  - apply Z.leb_gt in Hd.
    destruct (q <=? p * 2 ^ (- d)) eqn:T; cbv zeta.
    + rewrite (proj2 (Z.leb_gt 0 d) Hd). now apply Z.leb_le.
    + apply Z.leb_gt in T.
      rewrite (proj2 (Z.leb_gt 0 (d - 1))) by lia.
      assert (2 ^ (lq + 1) = 2 ^ lp * 2 ^ (- (d - 1))).
      { rewrite <- pow2_split by lia. f_equal. lia. }
      assert (0 < 2 ^ (- (d - 1))) by (apply pow2_pos; lia). nia.
Qed.

Lemma binade_upper p q :
  0 < p -> 0 < q ->
  let b := binade p q in
  if 0 <=? b + 1 then p < q * 2 ^ (b + 1) else p * 2 ^ (- (b + 1)) < q.
Proof.
  intros Hp Hq. unfold binade.
  pose proof (Z.log2_spec p Hp) as [Lp Up].
  pose proof (Z.log2_spec q Hq) as [Lq Uq].
  pose proof (Z.log2_nonneg p) as Np. pose proof (Z.log2_nonneg q) as Nq.
  unfold Z.succ in Up, Uq.
  set (lp := Z.log2 p) in *. set (lq := Z.log2 q) in *.
  set (d := lp - lq).
  destruct (0 <=? d) eqn:Hd.
  - apply Z.leb_le in Hd.
    destruct (q * 2 ^ d <=? p) eqn:T; cbv zeta.
    + rewrite (proj2 (Z.leb_le 0 (d + 1))) by lia.
      assert (2 ^ (lp + 1) = 2 ^ lq * 2 ^ (d + 1)).
      { rewrite <- pow2_split by lia. f_equal. lia. }
      assert (0 < 2 ^ (d + 1)) by (apply pow2_pos; lia). nia.
    + apply Z.leb_gt in T. replace (d - 1 + 1) with d by lia.
      rewrite (proj2 (Z.leb_le 0 d) Hd). lia.
  - apply Z.leb_gt in Hd.
    destruct (q <=? p * 2 ^ (- d)) eqn:T; cbv zeta.
    + destruct (0 <=? d + 1) eqn:Hd1.
      * apply Z.leb_le in Hd1. assert (d = -1) by lia.
        replace (d + 1) with 0 by lia. replace (lp + 1) with lq in Up by lia.
        change (2 ^ 0) with 1. lia.
      * apply Z.leb_gt in Hd1.
        assert (2 ^ lq = 2 ^ (lp + 1) * 2 ^ (- (d + 1))).
        { rewrite <- pow2_split by lia. f_equal. lia. }
        assert (0 < 2 ^ (- (d + 1))) by (apply pow2_pos; lia). nia.
    + apply Z.leb_gt in T. replace (d - 1 + 1) with d by lia.
      rewrite (proj2 (Z.leb_gt 0 d) Hd). lia.
Qed.

Lemma lit_4_2_eq : lit_4_2 = Finite 4728779608739021 (-50).
Proof. vm_compute. reflexivity. Qed.

Lemma binade_small p q : 0 < p -> 0 < q -> p < 4 * q -> binade p q <= 1.
Proof.
  intros Hp Hq H. pose proof (binade_lower p q Hp Hq) as BL. cbv zeta in BL.
  destruct (Z_le_gt_dec (binade p q) 1) as [|G]; [assumption|exfalso].
  rewrite (proj2 (Z.leb_le 0 _)) in BL by lia.
  pose proof (pow2_mono 2 (binade p q) ltac:(lia)) as P.
  change (2 ^ 2) with 4 in P. nia.
Qed.

Lemma binade_large p q : 0 < p -> 0 < q -> 8 * q <= p -> 3 <= binade p q.
Proof.
  intros Hp Hq H. pose proof (binade_upper p q Hp Hq) as BU. cbv zeta in BU.
  destruct (Z_le_gt_dec 3 (binade p q)) as [|G]; [assumption|exfalso].
  destruct (0 <=? binade p q + 1) eqn:S.
  - apply Z.leb_le in S.
    pose proof (pow2_mono (binade p q + 1) 3 ltac:(lia)) as P.
    change (2 ^ 3) with 8 in P. nia.
  - apply Z.leb_gt in S.
    pose proof (pow2_ge1 (- (binade p q + 1)) ltac:(lia)). nia.
Qed.

Lemma binade_mid p q :
  0 < p -> 0 < q -> 4 * q <= p < 8 * q -> binade p q = 2.
Proof.
  intros Hp Hq [H4 H8].
  pose proof (binade_lower p q Hp Hq) as BL.
  pose proof (binade_upper p q Hp Hq) as BU.
  cbv zeta in BL, BU.
  destruct (Z_le_gt_dec 3 (binade p q)) as [G|G].
  - exfalso. rewrite (proj2 (Z.leb_le 0 _)) in BL by lia.
    pose proof (pow2_mono 3 (binade p q) ltac:(lia)) as P.
    change (2 ^ 3) with 8 in P. nia.
  - destruct (Z_le_gt_dec (binade p q) 1) as [L|L]; [exfalso|lia].
    destruct (0 <=? binade p q + 1) eqn:S.
    + apply Z.leb_le in S.
      pose proof (pow2_mono (binade p q + 1) 2 ltac:(lia)) as P.
      change (2 ^ 2) with 4 in P. nia.
    + apply Z.leb_gt in S.
      pose proof (pow2_ge1 (- (binade p q + 1)) ltac:(lia)). nia.
Qed.

(** Below the binade of 4.2 a rounded significand stays within 53 bits. *)
Lemma scaled_small p q e :
  0 < p -> 0 < q -> binade p q - 52 <= e -> e < 0 ->
  scaled_rne p q e <= 2 ^ 53.
Proof.
  intros Hp Hq He Hn. unfold scaled_rne.
  rewrite (proj2 (Z.leb_gt 0 e)) by lia.
  pose proof (binade_upper p q Hp Hq) as BU. cbv zeta in BU.
  set (b := binade p q) in *.
  assert (P0 : 0 < 2 ^ (- e)) by (apply pow2_pos; lia).
  apply rne_le_even; [nia | lia | reflexivity |].
  assert (M : 2 ^ (- e) <= 2 ^ (52 - b)) by (apply pow2_mono; lia).
  assert (B : p * 2 ^ (52 - b) <= 2 ^ 53 * q).
  { destruct (0 <=? b + 1) eqn:S.
    - apply Z.leb_le in S.
      assert (2 ^ 53 = 2 ^ (b + 1) * 2 ^ (52 - b)).
      { rewrite <- pow2_split by lia. f_equal. lia. }
      assert (0 < 2 ^ (52 - b)) by (apply pow2_pos; lia). nia.
    - apply Z.leb_gt in S.
      assert (2 ^ (52 - b) = 2 ^ (- (b + 1)) * 2 ^ 53).
      { rewrite <- pow2_split by lia. f_equal. lia. }
      nia. }
  nia.
Qed.

(** From the binade of 8 on a rounded significand has 53 bits at least. *)
Lemma scaled_large p q :
  0 < p -> 0 < q -> 0 <= binade p q ->
  2 ^ 52 <= scaled_rne p q (binade p q - 52).
Proof.
  intros Hp Hq Hb. unfold scaled_rne.
  pose proof (binade_lower p q Hp Hq) as BL. cbv zeta in BL.
  set (b := binade p q) in *.
  rewrite (proj2 (Z.leb_le 0 b) Hb) in BL.
  destruct (0 <=? b - 52) eqn:S.
  - apply Z.leb_le in S.
    assert (0 < 2 ^ (b - 52)) by (apply pow2_pos; lia).
    assert (2 ^ b = 2 ^ 52 * 2 ^ (b - 52)).
    { rewrite <- pow2_split by lia. f_equal. lia. }
    etransitivity; [|apply rne_floor; nia].
    apply Z.div_le_lower_bound; nia.
  - apply Z.leb_gt in S.
    assert (0 < 2 ^ (- (b - 52))) by (apply pow2_pos; lia).
    assert (2 ^ 52 = 2 ^ b * 2 ^ (- (b - 52))).
    { rewrite <- pow2_split by lia. f_equal. lia. }
    etransitivity; [|apply rne_floor; nia].
    apply Z.div_le_lower_bound; nia.
Qed.

(** On the samples, [of_ratio] is the correctly rounded division of the
    Standard Library's IEEE 754 model. *)
Example of_ratio_agrees_with_SFdiv :
  map (fun '(p, q) => to_spec (of_ratio (Zpos p) (Zpos q))) ratio_samples
  = map (fun '(p, q) =>
           SFdiv prec emax (S754_finite false p 0) (S754_finite false q 0))
      ratio_samples.
Proof. vm_compute. reflexivity. Qed.

Lemma zero_fits : (2 ^ 1024 <=? 0) = false.
Proof. vm_compute. reflexivity. Qed.

(** [float] of a positive decimal is below the literal [4.2] exactly when the
    decimal is at most the midpoint between that binary64 number and the one
    before it. *)
Lemma lt_lit_4_2 p q :
  0 < p -> 0 < q ->
  lt (of_ratio p q) lit_4_2 = (p * 2 ^ 51 <=? 9457559217478041 * q).
Proof.
  intros Hp Hq. rewrite lit_4_2_eq. unfold of_ratio, prec, emin, emax.
  rewrite (proj2 (Z.eqb_neq p 0)) by lia.
  change (2 ^ 51) with 2251799813685248.
  destruct (Z_lt_le_dec p (4 * q)) as [C4|C4];
    [|destruct (Z_lt_le_dec p (8 * q)) as [C8|C8]].
  - (* below 4 *)
    pose proof (binade_small p q Hp Hq C4) as Hb.
    set (e := Z.max (binade p q - (53 - 1)) (-1074)).
    assert (He : e <= -51) by lia.
    pose proof (scaled_small p q e Hp Hq ltac:(lia) ltac:(lia)) as Hm.
    rewrite (Z.pow_neg_r 2 e) by lia. rewrite Z.mul_0_r, zero_fits.
    cbv iota. unfold lt. rewrite Z.min_l by lia.
    rewrite Z.sub_diag. change (2 ^ 0) with 1. rewrite Z.mul_1_r.
    pose proof (pow2_mono 1 (-50 - e) ltac:(lia)) as P.
    change (2 ^ 1) with 2 in P. change (2 ^ 53) with 9007199254740992 in Hm.
    rewrite (proj2 (Z.ltb_lt _ _)) by nia.
    symmetry. apply Z.leb_le. lia.
  - (* the binade of 4.2 *)
    rewrite (binade_mid p q Hp Hq (conj C4 C8)).
    change (Z.max (2 - (53 - 1)) (-1074)) with (-50).
    change (2 ^ (-50)) with 0. rewrite Z.mul_0_r, zero_fits. cbv iota.
    unfold lt. change (Z.min (-50) (-50)) with (-50).
    change (2 ^ (-50 - -50)) with 1. rewrite !Z.mul_1_r.
    unfold scaled_rne. change (0 <=? -50) with false. cbv iota.
    change (- -50) with 50. change (2 ^ 50) with 1125899906842624.
    pose proof (rne_le_even (p * 1125899906842624) q 4728779608739020
                  ltac:(lia) Hq eq_refl) as R.
    destruct (Z.ltb_spec (rne (p * 1125899906842624) q) 4728779608739021);
      symmetry; [apply Z.leb_le|apply Z.leb_gt]; lia.
  - (* from 8 on *)
    pose proof (binade_large p q Hp Hq C8) as Hb.
    rewrite Z.max_l by lia. change (53 - 1) with 52.
    pose proof (scaled_large p q Hp Hq ltac:(lia)) as Hm.
    change (2 ^ 52) with 4503599627370496 in Hm.
    set (m := scaled_rne p q (binade p q - 52)) in *.
    assert (R : (p * 2251799813685248 <=? 9457559217478041 * q) = false)
      by (apply Z.leb_gt; lia).
    rewrite R.
    destruct (2 ^ 1024 <=? m * 2 ^ (binade p q - 52)); [reflexivity|].
    unfold lt. rewrite Z.min_r by lia.
    change (2 ^ (-50 - -50)) with 1. rewrite Z.mul_1_r.
    pose proof (pow2_mono 1 (binade p q - 52 - -50) ltac:(lia)) as P.
    change (2 ^ 1) with 2 in P.
    apply Z.ltb_ge. nia.
Qed.

End F64Facts.

(** ** Strings and character classes *)

Module StrFacts.

Lemma append_nil_r s : s ++ "" = s.
Proof. induction s; simpl; congruence. Qed.

Lemma append_assoc a b c : (a ++ b) ++ c = a ++ b ++ c.
Proof. induction a; simpl; congruence. Qed.

Lemma rev_append a b : Str.rev (a ++ b) = Str.rev b ++ Str.rev a.
Proof.
  induction a as [|c a IH]; simpl.
  - now rewrite append_nil_r.
  - now rewrite IH, append_assoc.
Qed.

Lemma rev_involutive s : Str.rev (Str.rev s) = s.
Proof.
  induction s as [|c s IH]; simpl; [reflexivity|].
  now rewrite rev_append, IH.
Qed.

Lemma strip_prefix_app pre s : Str.strip_prefix pre (pre ++ s) = Some s.
Proof.
  induction pre as [|c pre IH]; simpl; [reflexivity|].
  now rewrite Ascii.eqb_refl.
Qed.

Lemma strip_prefix_inv pre s r :
  Str.strip_prefix pre s = Some r -> s = pre ++ r.
Proof.
  revert s; induction pre as [|c pre IH]; intros s; simpl.
  - now intros [= ->].
  - destruct s as [|d s]; [discriminate|].
    destruct (Ascii.eqb_spec c d) as [->|]; [|discriminate].
    intros H. now rewrite (IH _ H).
Qed.

Lemma startswith_iff s pre :
  Str.startswith s pre = true <-> exists r, s = pre ++ r.
Proof.
  unfold Str.startswith. split.
  - destruct (Str.strip_prefix pre s) eqn:E; [|discriminate].
    intros _. eexists. eauto using strip_prefix_inv.
  - intros [r ->]. now rewrite strip_prefix_app.
Qed.

Lemma endswith_iff s suf : Str.endswith s suf = true <-> ends_in s suf.
Proof.
  unfold Str.endswith, ends_in. rewrite startswith_iff. split.
  - intros [r E]. exists (Str.rev r).
    rewrite <- (rev_involutive s), E, rev_append.
    now rewrite rev_involutive.
  - intros [stem ->]. exists (Str.rev stem). apply rev_append.
Qed.

Lemma contains_iff hay needle :
  Str.contains hay needle = true <-> occurs_in needle hay.
Proof.
  unfold occurs_in. induction hay as [|c hay IH]; simpl.
  - rewrite orb_false_r, startswith_iff. split.
    + intros [r E]. exists "", r. exact E.
    + intros (a & b & E). destruct a; [|discriminate]. eauto.
  - rewrite orb_true_iff, startswith_iff, IH. split.
    + intros [[r E]|(a & b & E)].
      * exists "", r. exact E.
      * exists (String c a), b. simpl. now rewrite E.
    + intros (a & b & E). destruct a as [|d a]; simpl in E.
      * left. eauto.
      * right. injection E as -> E. eauto.
Qed.

Lemma all_append p a b :
  Str.all p (a ++ b) = Str.all p a && Str.all p b.
Proof.
  induction a as [|c a IH]; simpl; [reflexivity|].
  now rewrite IH, andb_assoc.
Qed.

Lemma length_append a b :
  String.length (a ++ b) = (String.length a + String.length b)%nat.
Proof. induction a; simpl; congruence. Qed.

Lemma drop_while_head p c s :
  p c = false -> Str.drop_while p (String c s) = String c s.
Proof. intros H. simpl. now rewrite H. Qed.

Lemma rev_head p s :
  Str.nonempty s = true -> Str.all p s = true ->
  exists d r, Str.rev s = String d r /\ p d = true.
Proof.
  induction s as [|c s IH]; [discriminate|]. intros _. simpl.
  rewrite andb_true_iff. intros [Hc Hs].
  destruct s as [|c' s'].
  - exists c, "". auto.
  - destruct (IH eq_refl Hs) as (d & r & E & Hd).
    rewrite E. exists d, (r ++ String c ""). auto.
Qed.

Lemma head_of p s :
  Str.nonempty s = true -> Str.all p s = true ->
  exists c r, s = String c r /\ p c = true.
Proof.
  destruct s as [|c r]; [discriminate|]. simpl.
  rewrite andb_true_iff. intros _ [Hc _]. eauto.
Qed.

End StrFacts.

Module CharFacts.

Lemma digit_not_space c : is_digit c = true -> is_float_space c = false.
Proof. unfold is_digit, is_float_space, between. lia. Qed.

Lemma digit_not_letter c : is_digit c = true -> is_ascii_letter c = false.
Proof. unfold is_digit, is_ascii_letter, between. lia. Qed.

Lemma digit_is_word c : is_digit c = true -> is_word c = true.
Proof. unfold is_word. intros ->. reflexivity. Qed.

Lemma letter_is_word c : is_ascii_letter c = true -> is_word c = true.
Proof. unfold is_word. intros ->. now rewrite orb_true_r. Qed.

Lemma letter_not_digit c : is_ascii_letter c = true -> is_digit c = false.
Proof. unfold is_digit, is_ascii_letter, between. lia. Qed.

Lemma digit_code c : is_digit c = true -> 48 <= code c <= 57.
Proof. unfold is_digit, between. lia. Qed.

Lemma code_inj c d : code c = code d -> c = d.
Proof.
  unfold code. intros H. apply N2Z.inj in H.
  rewrite <- (ascii_N_embedding c), <- (ascii_N_embedding d). now f_equal.
Qed.

Lemma digit_neq c d : is_digit c = true -> is_digit d = false -> Ascii.eqb c d = false.
Proof.
  intros Hc Hd. destruct (Ascii.eqb_spec c d) as [->|]; congruence.
Qed.

End CharFacts.

Module ParseFacts.
Import StrFacts CharFacts.

Lemma all_impl (p q : ascii -> bool) s :
  (forall c, p c = true -> q c = true) ->
  Str.all p s = true -> Str.all q s = true.
Proof.
  intros I. induction s as [|c s IH]; simpl; [reflexivity|].
  rewrite !andb_true_iff. intros [Hc Hs]. auto.
Qed.

Lemma sub_class_app p repl a b :
  Re.sub_class p repl (a ++ b) = Re.sub_class p repl a ++ Re.sub_class p repl b.
Proof.
  induction a as [|c a IH]; simpl; [reflexivity|].
  now rewrite IH, append_assoc.
Qed.

Lemma sub_class_none p repl s :
  Str.all (fun c => negb (p c)) s = true -> Re.sub_class p repl s = s.
Proof.
  induction s as [|c s IH]; simpl; [reflexivity|].
  rewrite andb_true_iff, negb_true_iff. intros [-> Hs]. simpl. now rewrite IH.
Qed.

Lemma digits_no_letter s :
  Str.all is_digit s = true ->
  Str.all (fun c => negb (is_ascii_letter c)) s = true.
Proof.
  apply all_impl. intros c H. now rewrite digit_not_letter.
Qed.

Lemma digit_not_underscore c : is_digit c = true -> F64.is_underscore c = false.
Proof.
  intros H. unfold F64.is_underscore.
  destruct (Ascii.eqb_spec c "_") as [->|]; [discriminate|reflexivity].
Qed.

Lemma digits_no_underscore s :
  Str.all is_digit s = true ->
  Str.all (fun c => negb (F64.is_underscore c)) s = true.
Proof.
  apply all_impl. intros c H. now rewrite digit_not_underscore.
Qed.

Lemma underscores_ok_none b s :
  Str.all (fun c => negb (F64.is_underscore c)) s = true ->
  F64.underscores_ok b s = true.
Proof.
  revert b. induction s as [|c s IH]; intros b; simpl; [reflexivity|].
  rewrite andb_true_iff, negb_true_iff. intros [-> Hs]. auto.
Qed.

Lemma span_digits X rest :
  Str.all is_digit X = true ->
  (forall c r, rest = String c r -> is_digit c = false) ->
  F64.span is_digit (X ++ rest) = (X, rest).
Proof.
  intros HX Hr. induction X as [|c X IH]; simpl in *.
  - destruct rest as [|c r]; [reflexivity|].
    simpl. now rewrite (Hr c r eq_refl).
  - apply andb_true_iff in HX as [-> HX]. now rewrite IH.
Qed.

Lemma digits_from_nonneg s acc :
  Str.all is_digit s = true -> 0 <= acc -> 0 <= F64.digits_from acc s.
Proof.
  revert acc. induction s as [|c s IH]; intros acc;
    cbn [F64.digits_from Str.all]; [auto|].
  rewrite andb_true_iff. intros [Hc Hs] Ha. apply IH; [assumption|].
  apply digit_code in Hc. unfold digit_value. lia.
Qed.

Lemma decimal_num_nonneg X Y :
  numeric_token X -> numeric_token Y -> 0 <= decimal_num X Y.
Proof.
  intros [_ HX] [_ HY]. apply digits_from_nonneg; [|lia].
  now rewrite all_append, HX, HY.
Qed.

Lemma decimal_den_pos Y : 0 < decimal_den Y.
Proof. unfold decimal_den. apply Z.pow_pos_nonneg; lia. Qed.

(** The letters of a banner removed, its number remains after two spaces. *)
Lemma banner_without_letters l X Y :
  optional_letter l -> numeric_token X -> numeric_token Y ->
  Re.sub_class is_ascii_letter "" (banner l X Y) = "  " ++ X ++ "." ++ Y.
Proof.
  intros Hl [_ HX] [_ HY]. unfold banner.
  rewrite !sub_class_app.
  rewrite (sub_class_none _ _ _ (digits_no_letter _ HX)).
  rewrite (sub_class_none _ _ _ (digits_no_letter _ HY)).
  destruct Hl as [->|(c & -> & Hc)]; simpl.
  - reflexivity.
  - now rewrite Hc.
Qed.

Lemma strip_number X Y :
  numeric_token X -> numeric_token Y ->
  Str.strip is_float_space ("  " ++ X ++ "." ++ Y) = X ++ "." ++ Y.
Proof.
  intros [NX HX] [NY HY]. unfold Str.strip.
  destruct (head_of _ _ NX HX) as (c & X' & -> & Hc).
  change (Str.drop_while is_float_space ("  " ++ String c X' ++ "." ++ Y))
    with (Str.drop_while is_float_space (String c (X' ++ "." ++ Y))).
  rewrite drop_while_head by now apply digit_not_space.
  change (String c (X' ++ "." ++ Y)) with (String c X' ++ "." ++ Y).
  rewrite <- (rev_involutive (String c X' ++ "." ++ Y)) at 2. f_equal.
  rewrite !rev_append.
  destruct (rev_head _ _ NY HY) as (d & r & -> & Hd).
  simpl. now rewrite digit_not_space.
Qed.

(** [float] reads the number of a banner as the fraction it denotes. *)
Lemma of_str_number X Y :
  numeric_token X -> numeric_token Y ->
  F64.of_str ("  " ++ X ++ "." ++ Y)
  = Some (F64.of_ratio (decimal_num X Y) (decimal_den Y)).
Proof.
  intros TX TY. unfold F64.of_str. rewrite (strip_number X Y TX TY).
  destruct TX as [NX HX], TY as [NY HY].
  assert (HA : Str.all (fun c => negb (F64.is_underscore c)) (X ++ "." ++ Y) = true).
  { rewrite !all_append, (digits_no_underscore _ HX), (digits_no_underscore _ HY).
    reflexivity. }
  rewrite (underscores_ok_none false _ HA), (sub_class_none _ _ _ HA).
  unfold F64.parse_decimal.
  destruct X as [|c X']; [discriminate|].
  pose proof HX as Hc. cbn [Str.all] in Hc. apply andb_true_iff in Hc as [Hc _].
  cbn [append]. rewrite !(digit_neq c _ Hc) by reflexivity.
  change (String c (X' ++ String "." Y)) with (String c X' ++ String "." Y).
  rewrite (span_digits _ (String "." Y) HX) by (intros ? ? [= <- _]; reflexivity).
  change (Ascii.eqb "." ".") with true. rewrite HY. reflexivity.
Qed.

End ParseFacts.

Module ReFacts.
Import StrFacts.

Lemma search_eq r s :
  Re.search r s =
  match Re.match_at r s with
  | Some g => Some g
  | None =>
      match s with
      | EmptyString => None
      | String _ s' => Re.search r s'
      end
  end.
Proof. destruct s; reflexivity. Qed.


(** What [search] reports is a match at some position. *)
Lemma search_sound r s g :
  Re.search r s = Some g ->
  exists pre s', s = pre ++ s' /\ Re.match_at r s' = Some g.
Proof.
  induction s as [|c s IH]; rewrite search_eq.
  - destruct (Re.match_at r "") eqn:E; [|discriminate].
    intros [= ->]. exists "", "". auto.
  - destruct (Re.match_at r (String c s)) eqn:E.
    + intros [= ->]. exists "", (String c s). auto.
    + intros H. destruct (IH H) as (pre & s' & -> & M).
      exists (String c pre), s'. auto.
Qed.




End ReFacts.

Module VersionFacts.
Import StrFacts CharFacts ParseFacts ReFacts.

Lemma plus_digits_all Y post :
  numeric_token Y ->
  (forall c r, post = String c r -> is_digit c = false) ->
  Re.plus_from is_digit (Y ++ post) (fun _ => Some "") = Some Y.
Proof.
  intros [NY HY] Hp. induction Y as [|c Y IH]; [discriminate|].
  cbn [Str.all] in HY. apply andb_true_iff in HY as [Hc HY].
  cbn [append Re.plus_from]. rewrite Hc.
  destruct Y as [|c' Y'].
  - cbn [append]. destruct post as [|d r]; [reflexivity|].
    cbn [Re.plus_from]. now rewrite (Hp d r eq_refl).
  - cbn [append] in IH |- *. now rewrite (IH eq_refl HY).
Qed.

Lemma plus_then_point X Y post :
  numeric_token X -> numeric_token Y ->
  (forall c r, post = String c r -> is_digit c = false) ->
  Re.plus_from is_digit (X ++ "." ++ Y ++ post)
    (fun s' => Re.match_here (Re.Lit ".") s'
                 (fun s'' => Re.match_here (Re.Plus is_digit) s'' (fun _ => Some "")))
  = Some (X ++ "." ++ Y).
Proof.
  intros [NX HX] TY Hp. induction X as [|c X IH]; [discriminate|].
  cbn [Str.all] in HX. apply andb_true_iff in HX as [Hc HX].
  cbn [append Re.plus_from]. rewrite Hc.
  destruct X as [|c' X'].
  - cbn. now rewrite (plus_digits_all Y post TY Hp).
  - cbn [append] in IH |- *. now rewrite (IH eq_refl HX).
Qed.

Lemma number_re_eq s k :
  Re.match_here number_re s k =
  match
    Re.plus_from is_digit s
      (fun s' => Re.match_here (Re.Lit ".") s'
                   (fun s'' => Re.match_here (Re.Plus is_digit) s'' k))
  with
  | Some g => Some g
  | None => Re.plus_from is_digit s k
  end.
Proof. reflexivity. Qed.

Lemma number_match X Y post :
  numeric_token X -> numeric_token Y ->
  (forall c r, post = String c r -> is_digit c = false) ->
  Re.match_here number_re (X ++ "." ++ Y ++ post) (fun _ => Some "")
  = Some (X ++ "." ++ Y).
Proof.
  intros TX TY Hp.
  now rewrite number_re_eq, (plus_then_point X Y post TX TY Hp).
Qed.

Lemma number_no_match_at_point s :
  Re.match_here number_re (String "." s) (fun _ => Some "") = None.
Proof. reflexivity. Qed.

Lemma version_re_eq s :
  Re.match_at version_re s =
  match Str.strip_prefix "ffmpeg version " s with
  | Some s' =>
      option_map (append "ffmpeg version ")
        match
          match s' with
          | String c s'' =>
              if is_word c
              then option_map (String c)
                     (Re.match_here number_re s'' (fun _ => Some ""))
              else None
          | EmptyString => None
          end
        with
        | Some g => Some g
        | None => Re.match_here number_re s' (fun _ => Some "")
        end
  | None => None
  end.
Proof. reflexivity. Qed.

(** At the start of a banner that is followed by no further digit the
    pattern matches the banner, all of it. *)
Lemma version_match_at l X Y post :
  optional_letter l -> numeric_token X -> numeric_token Y ->
  (forall c r, post = String c r -> is_digit c = false) ->
  Re.match_at version_re (banner l X Y ++ post) = Some (banner l X Y).
Proof.
  intros Hl TX TY Hp. rewrite version_re_eq. unfold banner.
  rewrite !append_assoc, strip_prefix_app.
  pose proof (number_match X Y post TX TY Hp) as N.
  destruct Hl as [->|(c & -> & Hc)].
  - destruct TX as [NX HX]. destruct X as [|c X]; [discriminate|].
    cbn [Str.all] in HX. apply andb_true_iff in HX as [Hc HX].
    cbn [append] in N |- *. cbv iota. rewrite (digit_is_word _ Hc).
    destruct X as [|c' X'].
    + cbn [append]. rewrite number_no_match_at_point.
      cbn [option_map]. cbn [append] in N. now rewrite N.
    + pose proof (number_match (String c' X') Y post (conj eq_refl HX) TY Hp)
        as N'.
      cbn [append] in N' |- *. now rewrite N'.
  - cbn [append] in N |- *. cbv iota.
    rewrite (letter_is_word _ Hc), N. reflexivity.
Qed.

Lemma version_search_banner l X Y post :
  optional_letter l -> numeric_token X -> numeric_token Y ->
  (forall c r, post = String c r -> is_digit c = false) ->
  Re.search version_re (banner l X Y ++ post) = Some (banner l X Y).
Proof.
  intros Hl TX TY Hp. rewrite search_eq.
  now rewrite (version_match_at l X Y post Hl TX TY Hp).
Qed.

End VersionFacts.

(** ** The conversion driver *)

Module ConvertFacts.
Import StrFacts.

Section Run.
Variable os : list string -> host_run.
Variable Path : Type.
Variable absolute : Path -> string.
Variables (src dst : Path) (tool : option string).

(** The table has a row for each enumerated format. *)
Lemma formats_row (f : format) :
  dict_get (formats (absolute src)) (format_name f)
  = ret (spec_codec_args f (absolute src)).
Proof. destruct f; reflexivity. Qed.

Lemma formats_unknown (f : string) :
  ~ In f format_names ->
  dict_get (formats (absolute src)) f = raise (KeyError f).
Proof.
  intros H. unfold formats. cbn [dict_get].
  repeat match goal with
  | |- context [String.eqb f ?k] =>
      destruct (String.eqb_spec f k) as [->|_];
      [exfalso; apply H; cbn; tauto|]
  end.
  reflexivity.
Qed.

Lemma quality_row (fmt : option format) :
  output_quality_command (option_map format_name fmt)
  = spec_quality_args (effective_format fmt).
Proof. destruct fmt as [[]|]; reflexivity. Qed.

Lemma arguments_row (fmt : option format) :
  arguments (absolute src) (absolute dst)
    (spec_codec_args (effective_format fmt) (absolute src))
    (output_quality_command (option_map format_name fmt))
  = spec_arguments (effective_format fmt) (absolute src) (absolute dst).
Proof. now rewrite quality_row. Qed.

(** [convert] on a request with an enumerated (or no) format, by what the
    host does with the argument vector. *)
Lemma convert_run (fmt : option format) :
  let args :=
    spec_arguments (effective_format fmt) (absolute src) (absolute dst) in
  let argv := tool_name tool :: args in
  convert os absolute src dst tool (option_map format_name fmt)
  = match os argv with
    | StartFails e => ([Spawn argv], Raise e)
    | CommunicateFails e => ([Spawn argv], Raise e)
    | Runs proc =>
        if returncode proc =? 0 then ([Spawn argv], Return true)
        else ([Spawn argv;
               Stderr (Text (error_message (returncode proc) args
                               (diagnostic proc)))],
              Return false)
    end.
Proof.
  intros args argv. unfold convert.
  replace (match option_map format_name fmt with
           | Some f => dict_get (formats (absolute src)) f
           | None => dict_get (formats (absolute src)) "mp3"
           end)
    with (ret (spec_codec_args (effective_format fmt) (absolute src)))
    by (destruct fmt; [symmetry; apply formats_row|reflexivity]).
  unfold ret at 1. cbn [bind]. rewrite arguments_row.
  fold args. unfold create_subprocess.
  replace (match tool with Some p => p | None => "ffmpeg" end)
    with (tool_name tool) by (destruct tool; reflexivity).
  fold argv. unfold communicate.
  destruct (os argv) as [proc|e|e]; cbn [bind]; try reflexivity.
  fold (diagnostic proc).
  destruct (returncode proc =? 0); reflexivity.
Qed.

End Run.
End ConvertFacts.

Module BytesFacts.
Import StrFacts CharFacts.

Lemma plain_escape c : plain_byte c = true -> Bytes.escape Bytes.quote1 c = Bytes.str1 c.
Proof.
  unfold plain_byte. rewrite !andb_true_iff, !negb_true_iff.
  intros [[B Q] S]. unfold Bytes.escape. rewrite Q, S. cbn [orb].
  assert (R : 32 <= code c <= 126) by (unfold between in B; lia).
  assert (N : forall d, code d < 32 -> Ascii.eqb c d = false).
  { intros d Hd. destruct (Ascii.eqb_spec c d) as [->|]; [lia|reflexivity]. }
  rewrite (N Bytes.tab), (N Bytes.newline), (N Bytes.creturn)
    by (vm_compute; reflexivity).
  replace (code c <? 32) with false by lia.
  replace (127 <=? code c) with false by lia.
  reflexivity.
Qed.

Lemma plain_escape_all b :
  Str.all plain_byte b = true -> Bytes.escape_all Bytes.quote1 b = b.
Proof.
  induction b as [|c b IH]; cbn [Str.all Bytes.escape_all]; [reflexivity|].
  rewrite andb_true_iff. intros [Hc Hb].
  now rewrite (plain_escape c Hc), (IH Hb).
Qed.

Lemma plain_no_quote b :
  Str.all plain_byte b = true -> Bytes.mem Bytes.quote1 b = false.
Proof.
  induction b as [|c b IH]; cbn [Str.all Bytes.mem]; [reflexivity|].
  rewrite andb_true_iff. intros [Hc Hb]. rewrite (IH Hb), orb_false_r.
  unfold plain_byte in Hc. rewrite !andb_true_iff, !negb_true_iff in Hc.
  destruct Hc as [[_ Q] _]. now rewrite Ascii.eqb_sym.
Qed.

(** The literal of plain bytes shows them as they are. *)
Lemma repr_plain b :
  Str.all plain_byte b = true -> Bytes.repr b = "b'" ++ b ++ "'".
Proof.
  intros H. unfold Bytes.repr.
  rewrite (plain_no_quote b H). cbn [andb].
  now rewrite (plain_escape_all b H).
Qed.

End BytesFacts.

Import StrFacts CharFacts ParseFacts ReFacts VersionFacts ConvertFacts BytesFacts.

(** ** The failure message *)

Lemma occurs_in_mid a x b : occurs_in x (a ++ x ++ b).
Proof. now exists a, b. Qed.

Lemma occurs_in_trans x y s : occurs_in x y -> occurs_in y s -> occurs_in x s.
Proof.
  intros (a & b & ->) (a' & b' & ->). exists (a' ++ a), (b ++ b').
  now rewrite !append_assoc.
Qed.

Lemma message_has_code rc args out :
  occurs_in (Str.of_int rc) (error_message rc args out).
Proof. unfold error_message. apply occurs_in_mid. Qed.

Lemma message_has_arguments rc args out :
  occurs_in (Str.join " " args) (error_message rc args out).
Proof.
  unfold error_message.
  exists ("ffmpeg returned an error (" ++ Str.of_int rc ++ ")" ++ nl
          ++ "ffmpeg arguments: " ++ dq),
         (dq ++ nl ++ "ffmpeg gave this output:" ++ nl ++ "=====" ++ nl
          ++ out ++ nl ++ "=====" ++ nl).
  now rewrite !append_assoc.
Qed.

Lemma message_has_output rc args out :
  occurs_in out (error_message rc args out).
Proof.
  unfold error_message.
  exists ("ffmpeg returned an error (" ++ Str.of_int rc ++ ")" ++ nl
          ++ "ffmpeg arguments: " ++ dq ++ Str.join " " args ++ dq ++ nl
          ++ "ffmpeg gave this output:" ++ nl ++ "=====" ++ nl),
         (nl ++ "=====" ++ nl).
  now rewrite !append_assoc.
Qed.

(** A request with an enumerated (or no) format starts the tool once, with
    the argument vector of the specification. *)
Lemma convert_spawned
    os (Path : Type) (absolute : Path -> string) src dst tool fmt :
  spawned (convert os absolute src dst tool (option_map format_name fmt))
  = [Spawn (tool_name tool
            :: spec_arguments (effective_format fmt)
                 (absolute src) (absolute dst))].
Proof.
  rewrite convert_run. cbv zeta.
  destruct (os _) as [proc|e|e]; [destruct (returncode proc =? 0)|..];
    reflexivity.
Qed.

Lemma above_midpoint_of_at_least X Y :
  at_least_4_2 X Y -> above_midpoint X Y = true.
Proof.
  unfold at_least_4_2, above_midpoint, midpoint_num.
  pose proof (decimal_den_pos Y). change (2 ^ 51) with 2251799813685248.
  intros H'. apply Z.ltb_lt. lia.
Qed.

Lemma above_midpoint_of_below X Y :
  numeric_token Y -> below_4_2 X Y -> (String.length Y <= 15)%nat ->
  above_midpoint X Y = false.
Proof.
  intros [NY _]. unfold below_4_2, above_midpoint, midpoint_num, decimal_den.
  destruct Y as [|c Y']; [discriminate|]. cbn [String.length].
  rewrite Nat2Z.inj_succ, Z.pow_succ_r by lia.
  intros B L.
  assert (D : 0 < 10 ^ Z.of_nat (String.length Y') <= 10 ^ 14).
  { split; [apply Z.pow_pos_nonneg; lia|apply Z.pow_le_mono_r; lia]. }
  change (10 ^ 14) with 100000000000000 in D.
  change (2 ^ 51) with 2251799813685248.
  apply Z.ltb_ge. lia.
Qed.

(** The check on a banner: [float] of the number against the literal. *)
Lemma version_check_on_banner os path proc l X Y :
  os [path; "-version"] = Runs proc ->
  Re.search version_re (stdout proc ++ stderr proc) = Some (banner l X Y) ->
  optional_letter l -> numeric_token X -> numeric_token Y ->
  outcome (has_correct_version os false path) = Return (above_midpoint X Y).
Proof.
  intros H S Hl TX TY. run_version_check H. rewrite S.
  rewrite (banner_without_letters l X Y Hl TX TY).
  unfold float. rewrite (of_str_number X Y TX TY).
  pose proof (decimal_num_nonneg X Y TX TY) as N0.
  pose proof (decimal_den_pos Y) as D0.
  unfold above_midpoint, midpoint_num. rewrite Z.ltb_antisym.
  destruct (Z.eq_dec (decimal_num X Y) 0) as [E|E].
  - rewrite E. cbn [F64.of_ratio Z.eqb ret bind fst snd].
    replace (0 * 2 ^ 51 <=? 9457559217478041 * decimal_den Y) with true
      by (symmetry; apply Z.leb_le; lia).
    reflexivity.
  - cbn [ret fst snd].
    rewrite F64Facts.lt_lit_4_2 by lia.
    destruct (decimal_num X Y * 2 ^ 51 <=? 9457559217478041 * decimal_den Y);
      reflexivity.
Qed.

(** X4: when the output opens with a banner [ffmpeg version], an optional
    letter, [X.Y], and no digit follows [Y], this banner alone decides the
    check: whatever comes after it (further components of the version, later
    banners, copyright dates) is ignored. *)
Lemma version_check_on_leading_banner os path proc l X Y post :
  os [path; "-version"] = Runs proc ->
  stdout proc ++ stderr proc = banner l X Y ++ post ->
  (forall c r, post = String c r -> is_digit c = false) ->
  optional_letter l -> numeric_token X -> numeric_token Y ->
  outcome (has_correct_version os false path) = Return (above_midpoint X Y).
Proof.
  intros H E Hp Hl TX TY.
  apply (version_check_on_banner os path proc l X Y H); try assumption.
  rewrite E. now apply version_search_banner.
Qed.

(** ** Sample runs *)

Example search_samples :
  map (Re.search version_re)
    [ "ffmpeg version 4.3 Copyright (c) 2000-2020";
      "ffmpeg version n4.3-static";
      "ffmpeg version 3.0 ffmpeg version 4.3";
      "ffmpeg version 4.2.1";
      "ffmpeg version 4";
      "ffmpeg version 1_000.5";
      "ffmpeg version _4.3";
      "ffmpeg version N-98765-gabcdef";
      "ffmpeg version n.5" ]
  = [ Some "ffmpeg version 4.3"; Some "ffmpeg version n4.3";
      Some "ffmpeg version 3.0"; Some "ffmpeg version 4.2";
      Some "ffmpeg version 4"; Some "ffmpeg version 1";
      Some "ffmpeg version _4.3"; None; None ].
Proof. vm_compute. reflexivity. Qed.

Example float_samples :
  map F64.of_str ["  4.3"; "4."; ".5"; "1_0.5"; "."; "_1"; "1__0"; "4.3.1"; ""]
  = [ Some (F64.Finite 4841369599423283 (-50));
      Some (F64.Finite 4503599627370496 (-50));
      Some (F64.Finite 4503599627370496 (-53));
      Some (F64.Finite 5910974510923776 (-49));
      None; None; None; None; None ].
Proof. vm_compute. reflexivity. Qed.

Example repr_samples :
  map Bytes.repr ["plain text"; "it's"; "a" ++ nl ++ "b"; "C:\tmp"]
  = [ "b'plain text'"; "b" ++ dq ++ "it's" ++ dq; "b'a\nb'"; "b'C:\\tmp'" ].
Proof. vm_compute. reflexivity. Qed.

Example version_check_samples :
  map (fun out => has_correct_version (os_fixed out "" 0) false "ffmpeg")
    [ "ffmpeg version 4.3"; "ffmpeg version 4.2"; "ffmpeg version 4.10";
      "ffmpeg version 10.0"; "Copyright (c) 2000-2021"; "" ]
  = [ ([Spawn ["ffmpeg"; "-version"]], Return true);
      ([Spawn ["ffmpeg"; "-version"]], Return true);
      ([Spawn ["ffmpeg"; "-version"];
        Stderr (TooOld (F64.Finite 4616189618054758 (-50)))], Return false);
      ([Spawn ["ffmpeg"; "-version"]], Return true);
      ([Spawn ["ffmpeg"; "-version"]], Return true);
      ([Spawn ["ffmpeg"; "-version"];
        Stderr (Text "Your FFmpeg version couldn't be detected")],
       Return false) ].
Proof. vm_compute. reflexivity. Qed.

(** * The claims *)

(** ** The version check *)

(** C1, as the code has it: with [skip_version_check] set the tool is still
    started, once, with [-version], and its output is read.  The result is
    [True] when the tool runs and its output is read, whatever it prints,
    and [False] when the tool is not found; any other failure of the start,
    and a failure of [communicate()], leave the function as the exception
    they are. *)
Theorem skip_check_still_spawns os path :
  spawned (has_correct_version os true path) = [Spawn [path; "-version"]]
  /\ outcome (has_correct_version os true path)
     = match os [path; "-version"] with
       | Runs _ => Return true
       | CommunicateFails e => Raise e
       | StartFails FileNotFoundError => Return false
       | StartFails e => Raise e
       end.
Proof.
  destruct (os [path; "-version"]) as [proc|e|e] eqn:H;
    run_version_check H; try (split; reflexivity).
  destruct e; split; reflexivity.
Qed.

(** C1 fails as stated: on a host without the tool the check with
    [skip_version_check] set neither returns [True] nor leaves the tool
    alone. *)
Lemma skip_check_counterexample :
  ~ (outcome (has_correct_version os_missing true "ffmpeg") = Return true
     /\ spawned (has_correct_version os_missing true "ffmpeg") = []).
Proof. intros [H _]. vm_compute in H. discriminate. Qed.

(** C3, as the code has it: when the match of the version pattern is the
    banner [ffmpeg version], an optional ASCII letter, [X.Y], the check
    compares the binary64 number nearest to [X.Y] with the one nearest to
    4.2: it returns [True] exactly when [X.Y] is above the midpoint
    [9457559217478041 / 2^51] below that number.  Hence [True] for every
    [X.Y >= 4.2], and [False] for every [X.Y < 4.2] whose [Y] has at most
    15 digits. *)
Theorem version_compatible_above_midpoint os path proc l X Y :
  os [path; "-version"] = Runs proc ->
  Re.search version_re (stdout proc ++ stderr proc) = Some (banner l X Y) ->
  optional_letter l -> numeric_token X -> numeric_token Y ->
  outcome (has_correct_version os false path) = Return (above_midpoint X Y)
  /\ (at_least_4_2 X Y ->
      outcome (has_correct_version os false path) = Return true)
  /\ (below_4_2 X Y -> (String.length Y <= 15)%nat ->
      outcome (has_correct_version os false path) = Return false).
Proof.
  intros H S Hl TX TY.
  pose proof (version_check_on_banner os path proc l X Y H S Hl TX TY) as R.
  split; [exact R|split].
  - intros A. now rewrite R, (above_midpoint_of_at_least X Y A).
  - intros B L. now rewrite R, (above_midpoint_of_below X Y TY B L).
Qed.

Lemma version_compatible_above_midpoint_witness :
  outcome (has_correct_version
             (os_fixed "ffmpeg version n4.3-static Copyright (c) 2000-2020" "" 0)
             false "ffmpeg") = Return (above_midpoint "4" "3")
  /\ (at_least_4_2 "4" "3" ->
      outcome (has_correct_version
                 (os_fixed "ffmpeg version n4.3-static Copyright (c) 2000-2020" "" 0)
                 false "ffmpeg") = Return true)
  /\ (below_4_2 "4" "3" -> (String.length "3" <= 15)%nat ->
      outcome (has_correct_version
                 (os_fixed "ffmpeg version n4.3-static Copyright (c) 2000-2020" "" 0)
                 false "ffmpeg") = Return false).
Proof.
  apply (version_compatible_above_midpoint
           (os_fixed "ffmpeg version n4.3-static Copyright (c) 2000-2020" "" 0)
           "ffmpeg"
           (Completed "ffmpeg version n4.3-static Copyright (c) 2000-2020" "" 0)
           "n" "4" "3").
  - reflexivity.
  - vm_compute. reflexivity.
  - right. exists "n"%char. split; reflexivity.
  - split; reflexivity.
  - split; reflexivity.
Defined.

(** C3 fails as stated: [4.1999999999999999] is below 4.2, yet [float] rounds
    it to the binary64 number of the literal and the check returns [True]. *)
Lemma version_rounding_counterexample :
  Re.search version_re "ffmpeg version 4.1999999999999999"
  = Some (banner "" "4" "1999999999999999")
  /\ below_4_2 "4" "1999999999999999"
  /\ outcome (has_correct_version
                (os_fixed "ffmpeg version 4.1999999999999999" "" 0)
                false "ffmpeg") = Return true.
Proof. vm_compute. repeat split; reflexivity. Qed.

(** C4 fails on the code: the pattern admits an underscore before the number,
    only ASCII letters are removed, and [float] raises [ValueError] on what
    remains. *)
Theorem underscore_banner_raises :
  Re.search version_re "ffmpeg version _4.3" = Some "ffmpeg version _4.3"
  /\ Re.sub_class is_ascii_letter "" "ffmpeg version _4.3" = "  _4.3"
  /\ has_correct_version (os_fixed "ffmpeg version _4.3" "" 0) false "ffmpeg"
     = ([Spawn ["ffmpeg"; "-version"]], Raise ValueError).
Proof. vm_compute. repeat split; reflexivity. Qed.



(** C10, as the code has it: when the start fails because the tool is not
    found, the check reports it on [sys.stderr] and returns [False],
    whatever [skip_version_check] is; every other failure of the start
    (permission denied, not a directory, an invalid path) leaves the
    function as the exception it is, and nothing is printed. *)
Theorem version_check_start_failure os skip path e :
  os [path; "-version"] = StartFails e ->
  (e = FileNotFoundError ->
   has_correct_version os skip path
   = ([Spawn [path; "-version"];
       Stderr (Text "FFmpeg was not found, spotDL cannot continue.")],
      Return false))
  /\ (e <> FileNotFoundError ->
      has_correct_version os skip path
      = ([Spawn [path; "-version"]], Raise e)).
Proof.
  intros H. split; intros E; run_version_check H.
  - subst e. reflexivity.
  - destruct e; try reflexivity. contradiction.
Qed.

Lemma version_check_start_failure_witness :
  has_correct_version os_missing true "/opt/bin/ffmpeg"
  = ([Spawn ["/opt/bin/ffmpeg"; "-version"];
      Stderr (Text "FFmpeg was not found, spotDL cannot continue.")],
     Return false)
  /\ has_correct_version os_denied true "/opt/bin"
     = ([Spawn ["/opt/bin"; "-version"]], Raise PermissionError).
Proof.
  split.
  - apply (proj1 (version_check_start_failure os_missing true
                    "/opt/bin/ffmpeg" FileNotFoundError eq_refl)).
    reflexivity.
  - apply (proj2 (version_check_start_failure os_denied true
                    "/opt/bin" PermissionError eq_refl)).
    discriminate.
Defined.

(** C10 fails as stated: a tool that is found but may not be executed makes
    the start raise [PermissionError], which the check does not catch. *)
Lemma version_check_denied_counterexample :
  outcome (has_correct_version os_denied false "/opt/bin")
  = Raise PermissionError
  /\ outcome (has_correct_version os_denied false "/opt/bin") <> Return false.
Proof. split; [reflexivity|discriminate]. Qed.

(** ** The conversion driver *)

(** C2, as the code has it: when the tool is not found, [convert] does not
    return; the [FileNotFoundError] of the single start attempt leaves it,
    and nothing is printed.  The same holds for every other exception of
    the start. *)
Theorem convert_spawn_failure_raises
    os (Path : Type) (absolute : Path -> string) src dst tool fmt e :
  os (tool_name tool
      :: spec_arguments (effective_format fmt) (absolute src) (absolute dst))
  = StartFails e ->
  convert os absolute src dst tool (option_map format_name fmt)
  = ([Spawn (tool_name tool
             :: spec_arguments (effective_format fmt)
                  (absolute src) (absolute dst))],
     Raise e).
Proof. intros H. rewrite convert_run. cbv zeta. now rewrite H. Qed.

Lemma convert_spawn_failure_raises_witness :
  convert os_missing music_dir "a.webm" "a.flac" None (Some "flac")
  = ([Spawn ["ffmpeg"; "-i"; "/music/a.webm"; "-codec:a"; "flac";
             "-abr"; "true"; "-q:a"; "0"; "-v"; "debug"; "/music/a.flac"]],
     Raise FileNotFoundError).
Proof.
  apply (convert_spawn_failure_raises os_missing string music_dir
           "a.webm" "a.flac" None (Some Flac) FileNotFoundError).
  reflexivity.
Defined.

(** C2 fails as stated: without the tool [convert] raises instead of
    returning a failure outcome. *)
Lemma convert_spawn_failure_counterexample :
  outcome (convert os_missing music_dir "a.opus" "a.mp3" None (Some "mp3"))
  = Raise FileNotFoundError
  /\ outcome (convert os_missing music_dir "a.opus" "a.mp3" None (Some "mp3"))
     <> Return false.
Proof. split; [reflexivity|discriminate]. Qed.

(** C5: a format string outside the enumerated set makes [convert] fail with
    [KeyError] before any process is started, without a fall-back to mp3;
    the mp3 profile is the default of the unset format only. *)
Theorem unknown_format_fails_fast
    os (Path : Type) (absolute : Path -> string) src dst tool f :
  ~ In f format_names ->
  convert os absolute src dst tool (Some f) = ([], Raise (KeyError f))
  /\ spawned (convert os absolute src dst tool None)
     = [Spawn (tool_name tool
               :: spec_arguments Mp3 (absolute src) (absolute dst))].
Proof.
  intros H. split.
  - unfold convert. now rewrite (formats_unknown Path absolute src f H).
  - change (@None string) with (option_map format_name None).
    apply convert_spawned.
Qed.

Lemma unknown_format_fails_fast_witness :
  convert (os_fixed "" "" 0) music_dir "a.webm" "a.aac" None (Some "aac")
  = ([], Raise (KeyError "aac"))
  /\ spawned (convert (os_fixed "" "" 0) music_dir "a.webm" "a.aac" None None)
     = [Spawn ("ffmpeg"
               :: spec_arguments Mp3 (music_dir "a.webm") (music_dir "a.aac"))].
Proof.
  apply (unknown_format_fails_fast (os_fixed "" "" 0) string music_dir
           "a.webm" "a.aac" None "aac").
  cbn. intros [H|[H|[H|[H|[H|[H|[]]]]]]]; discriminate H.
Defined.

(** C6: for the format opus the codec arguments are [-vn -c:a copy] when the
    absolute source path ends in [.opus] (a stream copy, no encoder), and
    [-c:a libopus] otherwise. *)
Theorem opus_codec_choice
    os (Path : Type) (absolute : Path -> string) src dst tool :
  (ends_in (absolute src) ".opus" ->
   spawned (convert os absolute src dst tool (Some "opus"))
   = [Spawn (tool_name tool
             :: (["-i"; absolute src] ++ ["-vn"; "-c:a"; "copy"]
                 ++ ["-abr"; "true"; "-q:a"; "0";
                     "-v"; "debug"; absolute dst])%list)])
  /\ (~ ends_in (absolute src) ".opus" ->
      spawned (convert os absolute src dst tool (Some "opus"))
      = [Spawn (tool_name tool
                :: (["-i"; absolute src] ++ ["-c:a"; "libopus"]
                    ++ ["-abr"; "true"; "-q:a"; "0";
                        "-v"; "debug"; absolute dst])%list)]).
Proof.
  pose proof (convert_spawned os Path absolute src dst tool (Some Opus)) as A.
  cbn [option_map format_name effective_format] in A.
  unfold spec_arguments in A.
  cbn [spec_codec_args spec_quality_args quality_level] in A.
  split; intros E; rewrite A.
  - apply endswith_iff in E. now rewrite E.
  - destruct (Str.endswith (absolute src) ".opus") eqn:B; [|reflexivity].
    exfalso. apply E, endswith_iff, B.
Qed.

Lemma opus_codec_choice_witness :
  spawned (convert (os_fixed "" "" 0) music_dir "a.opus" "b.opus" None
             (Some "opus"))
  = [Spawn ["ffmpeg"; "-i"; "/music/a.opus"; "-vn"; "-c:a"; "copy";
            "-abr"; "true"; "-q:a"; "0"; "-v"; "debug"; "/music/b.opus"]]
  /\ spawned (convert (os_fixed "" "" 0) music_dir "a.webm" "b.opus" None
                (Some "opus"))
     = [Spawn ["ffmpeg"; "-i"; "/music/a.webm"; "-c:a"; "libopus";
               "-abr"; "true"; "-q:a"; "0"; "-v"; "debug"; "/music/b.opus"]].
Proof.
  split.
  - apply (proj1 (opus_codec_choice (os_fixed "" "" 0) string music_dir
                    "a.opus" "b.opus" None)).
    exists "/music/a". reflexivity.
  - apply (proj2 (opus_codec_choice (os_fixed "" "" 0) string music_dir
                    "a.webm" "b.opus" None)).
    intros E. apply endswith_iff in E. discriminate E.
Defined.

(** C7: for an enumerated or unset format the tool is started with exactly
    [-i], the absolute source path, the codec arguments of the format,
    [-abr true], the quality arguments of the format (5 for ogg, none for
    m4a, 0 for the others), [-v debug] and the absolute destination path, in
    this order. *)
Theorem argument_vector_exact
    os (Path : Type) (absolute : Path -> string) src dst tool fmt :
  spawned (convert os absolute src dst tool (option_map format_name fmt))
  = [Spawn (tool_name tool
            :: (["-i"; absolute src]
                ++ spec_codec_args (effective_format fmt) (absolute src)
                ++ ["-abr"; "true"]
                ++ spec_quality_args (effective_format fmt)
                ++ ["-v"; "debug"; absolute dst])%list)].
Proof. apply convert_spawned. Qed.

(** C8, as the code has it: once the process has ended, [convert] returns
    [True] exactly when the exit code is 0, whatever was captured, and the
    tool has been started once.  On another exit code it prints one message
    that holds the exit code, the arguments joined by spaces and the bytes
    literal of the captured output ([str] of the concatenated streams;
    nothing when both are empty); the captured text itself occurs in the
    message when it is plain. *)
Theorem convert_outcome_by_exit_code
    os (Path : Type) (absolute : Path -> string) src dst tool fmt proc :
  let args :=
    spec_arguments (effective_format fmt) (absolute src) (absolute dst) in
  let run := convert os absolute src dst tool (option_map format_name fmt) in
  os (tool_name tool :: args) = Runs proc ->
  outcome run = Return (returncode proc =? 0)
  /\ spawned run = [Spawn (tool_name tool :: args)]
  /\ (returncode proc = 0 -> events run = [Spawn (tool_name tool :: args)])
  /\ (returncode proc <> 0 ->
      exists msg,
        events run = [Spawn (tool_name tool :: args); Stderr (Text msg)]
        /\ occurs_in (Str.of_int (returncode proc)) msg
        /\ occurs_in (Str.join " " args) msg
        /\ occurs_in (diagnostic proc) msg
        /\ (Str.nonempty (stdout proc ++ stderr proc) = true ->
            Str.all plain_byte (stdout proc ++ stderr proc) = true ->
            occurs_in (stdout proc ++ stderr proc) msg)).
Proof.
  intros args run H. subst run. rewrite convert_run. cbv zeta. fold args.
  rewrite H. destruct (Z.eqb_spec (returncode proc) 0) as [E|E].
  - repeat split; try reflexivity. intros; contradiction.
  - repeat split; try reflexivity; [intros; contradiction|].
    intros _. eexists. split; [reflexivity|].
    split; [apply message_has_code|].
    split; [apply message_has_arguments|].
    split; [apply message_has_output|].
    intros NE PL. eapply occurs_in_trans; [|apply message_has_output].
    unfold diagnostic.
    replace (Str.nonempty (stdout proc) || Str.nonempty (stderr proc))
      with true
      by (destruct (stdout proc); [exact (eq_sym NE)|reflexivity]).
    rewrite (repr_plain _ PL). apply occurs_in_mid.
Qed.

Lemma convert_outcome_by_exit_code_witness :
  outcome (convert (os_fixed "" "Invalid data" 17) music_dir "a.webm" "a.ogg"
             (Some "/usr/bin/ffmpeg") (Some "ogg"))
  = Return false
  /\ exists msg,
       events (convert (os_fixed "" "Invalid data" 17) music_dir "a.webm"
                 "a.ogg" (Some "/usr/bin/ffmpeg") (Some "ogg"))
       = [Spawn ["/usr/bin/ffmpeg"; "-i"; "/music/a.webm"; "-codec:a";
                 "libvorbis"; "-abr"; "true"; "-q:a"; "5"; "-v"; "debug";
                 "/music/a.ogg"];
          Stderr (Text msg)]
       /\ occurs_in "17" msg
       /\ occurs_in "-i /music/a.webm -codec:a libvorbis -abr true -q:a 5 -v debug /music/a.ogg" msg
       /\ occurs_in "b'Invalid data'" msg
       /\ occurs_in "Invalid data" msg.
Proof.
  pose proof (convert_outcome_by_exit_code (os_fixed "" "Invalid data" 17)
                string music_dir "a.webm" "a.ogg" (Some "/usr/bin/ffmpeg")
                (Some Ogg) (Completed "" "Invalid data" 17) eq_refl)
    as (R & _ & _ & F).
  split; [exact R|].
  destruct (F ltac:(discriminate)) as (msg & E & C & A & D & P).
  exists msg.
  repeat split;
    [exact E|exact C|exact A|exact D|exact (P eq_refl eq_refl)].
Defined.

(** C8 fails as stated: the message holds the literal of the captured bytes,
    in which a line end is spelled with a backslash, so the captured output
    itself does not occur in it. *)
Lemma raw_output_not_in_message :
  outcome (convert (os_fixed "" ("a.opus: Invalid data" ++ nl) 1)
             music_dir "a.opus" "a.mp3" None None) = Return false
  /\ ~ occurs_in ("" ++ "a.opus: Invalid data" ++ nl)
         (stderr_text
            (events (convert (os_fixed "" ("a.opus: Invalid data" ++ nl) 1)
                       music_dir "a.opus" "a.mp3" None None))).
Proof.
  split; [reflexivity|]. rewrite <- contains_iff. vm_compute. discriminate.
Qed.

(** * Further properties *)

(** ** Supporting facts *)

Lemma format_names_inv f :
  In f format_names -> exists fmt, f = format_name fmt.
Proof.
  cbn. intros [<-|[<-|[<-|[<-|[<-|[<-|[]]]]]]];
    [exists Mp3|exists Flac|exists Ogg|exists Opus|exists M4a|exists Wav];
    reflexivity.
Qed.

Lemma strip_padded s :
  (exists c r, s = String c r /\ is_float_space c = false) ->
  (exists d r, Str.rev s = String d r /\ is_float_space d = false) ->
  Str.strip is_float_space ("  " ++ s) = s.
Proof.
  intros (c & r & -> & Hc) (d & r' & E & Hd). unfold Str.strip.
  change (Str.drop_while is_float_space ("  " ++ String c r))
    with (Str.drop_while is_float_space (String c r)).
  rewrite drop_while_head by assumption.
  rewrite E, drop_while_head by assumption.
  now rewrite <- E, rev_involutive.
Qed.

Lemma of_str_integer X :
  numeric_token X ->
  F64.of_str ("  " ++ X) = Some (F64.of_ratio (F64.digits X) 1).
Proof.
  intros [NX HX]. unfold F64.of_str.
  rewrite strip_padded.
  2: { destruct (head_of is_digit X NX HX) as (c & r & -> & Hc).
       exists c, r. auto using digit_not_space. }
  2: { destruct (rev_head is_digit X NX HX) as (d & r & E & Hd).
       exists d, r. auto using digit_not_space. }
  pose proof (digits_no_underscore X HX) as HA.
  rewrite (underscores_ok_none false X HA), (sub_class_none _ _ _ HA).
  unfold F64.parse_decimal.
  destruct X as [|c X']; [discriminate|].
  pose proof HX as Hc. cbn [Str.all] in Hc. apply andb_true_iff in Hc as [Hc _].
  rewrite !(digit_neq c _ Hc) by reflexivity.
  rewrite <- (append_nil_r (String c X')) at 1.
  rewrite (span_digits _ "" HX) by discriminate.
  rewrite NX. reflexivity.
Qed.

Module ShapeFacts.

(** What [c+] consumes is a run of the class, and the rest of the pattern
    matched what follows. *)
Lemma plus_from_inv p s k g :
  Re.plus_from p s k = Some g ->
  exists X r g',
    s = X ++ r /\ Str.nonempty X = true /\ Str.all p X = true
    /\ k r = Some g' /\ g = X ++ g'.
Proof.
  revert g. induction s as [|c s IH]; intros g; cbn [Re.plus_from];
    [discriminate|].
  destruct (p c) eqn:Hc; [|discriminate].
  destruct (Re.plus_from p s k) as [g0|] eqn:E.
  - intros [= <-]. destruct (IH g0 eq_refl) as (X & r & g' & -> & _ & HX & K & ->).
    exists (String c X), r, g'. cbn [Str.all]. rewrite Hc, HX. auto.
  - destruct (k s) as [g'|] eqn:K; [|discriminate]. intros [= <-].
    exists (String c ""), s, g'. cbn [Str.all]. rewrite Hc. auto.
Qed.

Lemma plus_digits_inv s g :
  Re.plus_from is_digit s (fun _ => Some "") = Some g -> numeric_token g.
Proof.
  intros H. apply plus_from_inv in H as (X & r & g' & _ & N & A & [= <-] & ->).
  rewrite append_nil_r. now split.
Qed.

(** What the tail of the version pattern matches is a number. *)
Lemma number_match_inv s g :
  Re.match_here number_re s (fun _ => Some "") = Some g -> number_text g.
Proof.
  rewrite number_re_eq.
  destruct (Re.plus_from is_digit s _) as [g0|] eqn:E.
  - intros [= <-].
    apply plus_from_inv in E as (X & r & g' & _ & NX & HX & K & ->).
    cbn [Re.match_here] in K.
    destruct (Str.strip_prefix "." r) as [r2|]; [|discriminate].
    destruct (Re.plus_from is_digit r2 _) as [Y|] eqn:E2; [|discriminate].
    injection K as <-. apply plus_digits_inv in E2.
    right. exists X, Y. split; [reflexivity|]. split; [split|]; assumption.
  - intros H. left. eapply plus_digits_inv, H.
Qed.

(** What the version pattern matches: the prefix, then a number, with at
    most one word character between them. *)
Lemma version_match_inv s g :
  Re.match_at version_re s = Some g ->
  exists t,
    g = "ffmpeg version " ++ t
    /\ (number_text t
        \/ exists c n, t = String c n /\ is_word c = true /\ number_text n).
Proof.
  rewrite version_re_eq.
  destruct (Str.strip_prefix "ffmpeg version " s) as [s'|]; [|discriminate].
  destruct s' as [|c s''].
  - destruct (Re.match_here number_re "" _) as [n|] eqn:E; [|discriminate].
    intros [= <-]. exists n. split; [reflexivity|].
    left. eapply number_match_inv, E.
  - destruct (is_word c) eqn:W.
    + destruct (Re.match_here number_re s'' _) as [n|] eqn:E.
      * intros [= <-]. exists (String c n). split; [reflexivity|].
        right. exists c, n. repeat split; [assumption|].
        eapply number_match_inv, E.
      * cbn [option_map].
        destruct (Re.match_here number_re (String c s'') _) as [n|] eqn:E';
          [|discriminate].
        intros [= <-]. exists n. split; [reflexivity|].
        left. eapply number_match_inv, E'.
    + destruct (Re.match_here number_re (String c s'') _) as [n|] eqn:E';
        [|discriminate].
      intros [= <-]. exists n. split; [reflexivity|].
      left. eapply number_match_inv, E'.
Qed.

Lemma version_search_inv s g :
  Re.search version_re s = Some g ->
  exists t,
    g = "ffmpeg version " ++ t
    /\ (number_text t
        \/ exists c n, t = String c n /\ is_word c = true /\ number_text n).
Proof.
  intros H. apply search_sound in H as (pre & s' & _ & M).
  eapply version_match_inv, M.
Qed.

Lemma number_head n :
  number_text n -> exists c r, n = String c r /\ is_digit c = true.
Proof.
  intros [[N H]|(X & Y & -> & [N H] & _)].
  - apply head_of; assumption.
  - destruct (head_of is_digit X N H) as (c & r & -> & Hc).
    exists c, (r ++ "." ++ Y). auto.
Qed.

Lemma number_last n :
  number_text n -> exists d r, Str.rev n = String d r /\ is_digit d = true.
Proof.
  intros [[N H]|(X & Y & -> & _ & [N H])].
  - apply rev_head; assumption.
  - rewrite !rev_append.
    destruct (rev_head is_digit Y N H) as (d & r & -> & Hd).
    cbn [append]. eauto.
Qed.

Lemma number_no_letter n :
  number_text n -> Re.sub_class is_ascii_letter "" n = n.
Proof.
  intros [[_ H]|(X & Y & -> & [_ HX] & [_ HY])].
  - apply sub_class_none, digits_no_letter, H.
  - rewrite !sub_class_app.
    rewrite (sub_class_none _ _ _ (digits_no_letter _ HX)).
    now rewrite (sub_class_none _ _ _ (digits_no_letter _ HY)).
Qed.

Lemma number_no_underscore n :
  number_text n ->
  Str.all (fun c => negb (F64.is_underscore c)) n = true.
Proof.
  intros [[_ H]|(X & Y & -> & [_ HX] & [_ HY])].
  - apply digits_no_underscore, H.
  - rewrite !all_append, (digits_no_underscore _ HX),
      (digits_no_underscore _ HY). reflexivity.
Qed.

(** [float] reads every number. *)
Lemma of_str_number_text n :
  number_text n -> exists v, F64.of_str ("  " ++ n) = Some v.
Proof.
  intros [T|(X & Y & -> & TX & TY)].
  - eexists. apply of_str_integer, T.
  - eexists. apply of_str_number; assumption.
Qed.

(** A digit before a number makes a number. *)
Lemma number_cons c n :
  is_digit c = true -> number_text n -> number_text (String c n).
Proof.
  intros Hc [[N H]|(X & Y & -> & [NX HX] & TY)].
  - left. split; [reflexivity|]. cbn [Str.all]. now rewrite Hc.
  - right. exists (String c X), Y.
    split; [reflexivity|]. split; [|assumption].
    split; [reflexivity|]. cbn [Str.all]. now rewrite Hc.
Qed.

Lemma word_not_space c : is_word c = true -> is_float_space c = false.
Proof. unfold is_word, is_float_space, is_digit, is_ascii_letter, between. lia. Qed.

(** [float] rejects a number after a word character that is no digit. *)
Lemma of_str_after_word c n :
  is_word c = true -> is_digit c = false -> number_text n ->
  F64.of_str ("  " ++ String c n) = None.
Proof.
  intros W D T. unfold F64.of_str.
  rewrite strip_padded.
  2: { exists c, n. auto using word_not_space. }
  2: { destruct (number_last n T) as (d & r & E & Hd).
       exists d, (r ++ String c ""). cbn [Str.rev]. rewrite E.
       auto using digit_not_space. }
  cbn [F64.underscores_ok]. rewrite D.
  destruct (F64.is_underscore c) eqn:U; [reflexivity|].
  rewrite (underscores_ok_none false n (number_no_underscore n T)).
  cbn [Re.sub_class]. rewrite U.
  rewrite (sub_class_none _ _ _ (number_no_underscore n T)).
  cbn [append]. unfold F64.parse_decimal.
  assert (NW : forall d, is_word d = false -> Ascii.eqb c d = false).
  { intros d Hd. destruct (Ascii.eqb_spec c d) as [->|]; congruence. }
  rewrite !NW by reflexivity. cbn [F64.span]. rewrite D.
  now rewrite NW by reflexivity.
Qed.

End ShapeFacts.

Import ShapeFacts.

Lemma append_inv_l a x y : a ++ x = a ++ y -> x = y.
Proof. induction a as [|c a IH]; cbn; [auto|]. intros [= H]. auto. Qed.

(** The check once the version pattern has matched [g]. *)
Lemma version_check_parsed os path proc g :
  os [path; "-version"] = Runs proc ->
  Re.search version_re (stdout proc ++ stderr proc) = Some g ->
  outcome (has_correct_version os false path)
  = match F64.of_str (Re.sub_class is_ascii_letter "" g) with
    | Some v => Return (negb (F64.lt v F64.lit_4_2))
    | None => Raise ValueError
    end.
Proof.
  intros H S. run_version_check H. rewrite S. unfold float.
  destruct (F64.of_str _) as [v|]; [|reflexivity].
  cbn [ret bind fst snd]. destruct (F64.lt v F64.lit_4_2); reflexivity.
Qed.

Lemma prefix_without_letters t :
  Re.sub_class is_ascii_letter "" ("ffmpeg version " ++ t)
  = "  " ++ Re.sub_class is_ascii_letter "" t.
Proof. now rewrite sub_class_app. Qed.

Module LiteralFacts.
Import Bytes Unescape.

Lemma hex_value_digit n : 0 <= n < 16 -> hex_value (hex_digit n) = n.
Proof.
  intros H. rewrite <- (Z2Nat.id n) by lia.
  assert (K : (Z.to_nat n < 16)%nat) by lia.
  revert K. generalize (Z.to_nat n). intros k K.
  do 16 (destruct k as [|k]; [reflexivity|]). lia.
Qed.

Lemma code_range c : 0 <= code c < 256.
Proof.
  unfold code. pose proof (N_ascii_bounded c). lia.
Qed.

Lemma ascii_of_code c : ascii_of_N (Z.to_N (code c)) = c.
Proof. unfold code. now rewrite N2Z.id, ascii_N_embedding. Qed.

Lemma unescape_escape q c rest :
  q = quote1 \/ q = quote2 ->
  unescape (escape q c ++ rest) = String c (unescape rest).
Proof.
  intros Hq. unfold escape.
  destruct (Ascii.eqb c q || Ascii.eqb c backslash) eqn:E1.
  - cbn [append unescape]. change (Ascii.eqb backslash backslash) with true.
    cbv iota.
    assert (C : c = quote1 \/ c = quote2 \/ c = backslash).
    { apply orb_true_iff in E1 as [E|E]; apply Ascii.eqb_eq in E; subst;
        tauto. }
    destruct C as [-> | [-> | ->]]; reflexivity.
  - apply orb_false_iff in E1 as [_ NB].
    destruct (Ascii.eqb_spec c tab) as [->|_]; [reflexivity|].
    destruct (Ascii.eqb_spec c newline) as [->|_]; [reflexivity|].
    destruct (Ascii.eqb_spec c creturn) as [->|_]; [reflexivity|].
    destruct ((code c <? 32) || (127 <=? code c)).
    + cbn [append str1 unescape].
      change (Ascii.eqb backslash backslash) with true.
      change (Ascii.eqb "x" "x") with true. cbv iota.
      pose proof (code_range c) as R.
      assert (0 <= code c / 16 < 16)
        by (split; [apply Z.div_pos|apply Z.div_lt_upper_bound]; lia).
      pose proof (Z.mod_pos_bound (code c) 16 ltac:(lia)).
      rewrite !hex_value_digit by assumption.
      rewrite <- Z.div_mod by lia. now rewrite ascii_of_code.
    + cbn [append str1 unescape]. now rewrite NB.
Qed.

(** The inside of a literal stands for the bytes it was written from. *)
Lemma unescape_escape_all q b :
  q = quote1 \/ q = quote2 -> unescape (escape_all q b) = b.
Proof.
  intros Hq. induction b as [|c b IH]; cbn [escape_all]; [reflexivity|].
  now rewrite (unescape_escape q c _ Hq), IH.
Qed.

End LiteralFacts.

Module DiagnosticFacts.
Import Bytes Unescape LiteralFacts.

Lemma append_inv_r a x y : x ++ a = y ++ a -> x = y.
Proof.
  intros H. apply (f_equal Str.rev) in H. rewrite !rev_append in H.
  apply append_inv_l in H.
  now rewrite <- (rev_involutive x), H, rev_involutive.
Qed.

(** Different bytes have different literals. *)
Lemma repr_inj b1 b2 : repr b1 = repr b2 -> b1 = b2.
Proof.
  unfold repr.
  set (q1 := if mem quote1 b1 && negb (mem quote2 b1) then quote2 else quote1).
  set (q2 := if mem quote1 b2 && negb (mem quote2 b2) then quote2 else quote1).
  assert (H1 : q1 = quote1 \/ q1 = quote2)
    by (unfold q1; destruct (_ && _); auto).
  cbn [append]. intros [= Q E]. rewrite <- Q in E.
  apply append_inv_r in E. apply (f_equal unescape) in E.
  now rewrite !unescape_escape_all in E by assumption.
Qed.

Lemma diagnostic_eq p :
  diagnostic p
  = if Str.nonempty (stdout p ++ stderr p)
    then repr (stdout p ++ stderr p) else "".
Proof. unfold diagnostic. destruct (stdout p); reflexivity. Qed.

Lemma diagnostic_inj p1 p2 :
  diagnostic p1 = diagnostic p2 ->
  stdout p1 ++ stderr p1 = stdout p2 ++ stderr p2.
Proof.
  rewrite !diagnostic_eq.
  destruct (stdout p1 ++ stderr p1) as [|c1 b1] eqn:E1;
    destruct (stdout p2 ++ stderr p2) as [|c2 b2] eqn:E2;
    cbn [Str.nonempty]; try reflexivity; try discriminate.
  apply repr_inj.
Qed.

End DiagnosticFacts.

Import DiagnosticFacts.

(** ** The version check *)

(** X1: the version check starts the tool exactly once, with [-version], and
    writes to [sys.stderr] exactly when it returns [False]: then one of its
    three messages, and nothing when it returns [True] or raises. *)
Theorem version_check_events os skip path :
  match outcome (has_correct_version os skip path) with
  | Return false =>
      exists msg,
        version_message msg
        /\ events (has_correct_version os skip path)
           = [Spawn [path; "-version"]; Stderr msg]
  | _ => events (has_correct_version os skip path) = [Spawn [path; "-version"]]
  end.
Proof.
  destruct (os [path; "-version"]) as [proc|e|e] eqn:H; run_version_check H.
  - destruct skip; [reflexivity|].
    destruct (Re.search version_re (stdout proc ++ stderr proc)).
    + unfold float. destruct (F64.of_str _) as [v|]; [|reflexivity].
      cbn [ret bind fst snd].
      destruct (F64.lt v F64.lit_4_2); cbn; [|reflexivity].
      eexists. split; [|reflexivity]. right; left. eauto.
    + destruct (Re.search copyright_re _); cbn; [reflexivity|].
      eexists. split; [|reflexivity]. right; right. reflexivity.
  - reflexivity.
  - destruct e; try reflexivity.
    cbn. eexists. split; [|reflexivity]. left. reflexivity.
Qed.

(** X2: once the tool has run and its output has been read, the version
    check raises exactly when the check is not skipped and, in the match of
    the version pattern, the character after [ffmpeg version] is neither a
    digit nor an ASCII letter (an underscore, say, or an accented letter);
    what it raises then is the [ValueError] of [float]. *)
Theorem version_check_raises_iff os skip path proc e :
  os [path; "-version"] = Runs proc ->
  (outcome (has_correct_version os skip path) = Raise e
   <-> e = ValueError /\ skip = false
       /\ exists c rest,
            Re.search version_re (stdout proc ++ stderr proc)
            = Some ("ffmpeg version " ++ String c rest)
            /\ is_digit c = false /\ is_ascii_letter c = false).
Proof.
  intros H. split.
  - destruct skip; [run_version_check H; discriminate|].
    destruct (Re.search version_re (stdout proc ++ stderr proc)) as [g|] eqn:S.
    + rewrite (version_check_parsed os path proc g H S).
      destruct (version_search_inv _ g S) as (t & -> & Sh).
      rewrite prefix_without_letters.
      destruct Sh as [T|(c & n & -> & W & T)].
      * rewrite (number_no_letter t T).
        destruct (of_str_number_text t T) as [v ->]. discriminate.
      * cbn [Re.sub_class]. rewrite (number_no_letter n T).
        destruct (is_ascii_letter c) eqn:L.
        -- change ("" ++ n) with n.
           destruct (of_str_number_text n T) as [v ->]. discriminate.
        -- change (String c "" ++ n) with (String c n).
           destruct (is_digit c) eqn:D.
           ++ destruct (of_str_number_text _ (number_cons c n D T)) as [v ->].
              discriminate.
           ++ rewrite (of_str_after_word c n W D T). intros [= <-].
              repeat split. exists c, n. auto.
    + run_version_check H. rewrite S.
      destruct (Re.search copyright_re _); discriminate.
  - intros (-> & -> & c & rest & S & D & L).
    rewrite (version_check_parsed os path proc _ H S).
    destruct (version_search_inv _ _ S) as (t & E & Sh).
    apply append_inv_l in E. subst t.
    rewrite prefix_without_letters.
    destruct Sh as [T|(c' & n & [= <- <-] & W & T)].
    + destruct (number_head _ T) as (c' & r & [= <- _] & D'). congruence.
    + cbn [Re.sub_class]. rewrite L, (number_no_letter rest T).
      change (String c "" ++ rest) with (String c rest).
      now rewrite (of_str_after_word c rest W D T).
Qed.

Lemma version_check_raises_iff_witness :
  outcome (has_correct_version (os_fixed "ffmpeg version _4.3" "" 0)
             false "ffmpeg") = Raise ValueError.
Proof.
  apply (proj2 (version_check_raises_iff (os_fixed "ffmpeg version _4.3" "" 0)
                  false "ffmpeg" (Completed "ffmpeg version _4.3" "" 0)
                  ValueError eq_refl)).
  repeat split.
  exists "_"%char, "4.3".
  repeat split; vm_compute; reflexivity.
Defined.

(** X3: a banner without a minor number, [ffmpeg version], an optional
    letter, [X], is read as the integer [X]: the check returns [True]
    exactly from 5 on, so a bare major version 4 is refused. *)
Theorem major_only_banner os path proc l X :
  os [path; "-version"] = Runs proc ->
  Re.search version_re (stdout proc ++ stderr proc)
  = Some ("ffmpeg version " ++ l ++ X) ->
  optional_letter l -> numeric_token X ->
  outcome (has_correct_version os false path) = Return (5 <=? F64.digits X).
Proof.
  intros H S Hl TX. run_version_check H. rewrite S.
  assert (E : Re.sub_class is_ascii_letter "" ("ffmpeg version " ++ l ++ X)
              = "  " ++ X).
  { rewrite !sub_class_app.
    rewrite (sub_class_none _ _ _ (digits_no_letter _ (proj2 TX))).
    destruct Hl as [->|(c & -> & Hc)]; simpl; [reflexivity|now rewrite Hc]. }
  rewrite E. unfold float. rewrite (of_str_integer X TX).
  pose proof (digits_from_nonneg X 0 (proj2 TX) ltac:(lia)) as N0.
  fold (F64.digits X) in N0. cbn [ret bind fst snd].
  destruct (Z.eq_dec (F64.digits X) 0) as [Z|Z].
  - rewrite Z. reflexivity.
  - rewrite F64Facts.lt_lit_4_2 by lia.
    change (2 ^ 51) with 2251799813685248.
    destruct (Z.leb_spec (F64.digits X * 2251799813685248)
                (9457559217478041 * 1));
      destruct (Z.leb_spec 5 (F64.digits X)); try reflexivity; lia.
Qed.

Lemma major_only_banner_witness :
  outcome (has_correct_version (os_fixed "ffmpeg version 4-static" "" 0)
             false "ffmpeg") = Return false
  /\ outcome (has_correct_version (os_fixed "" "ffmpeg version n5" 0)
                false "ffmpeg") = Return true.
Proof.
  split.
  - apply (major_only_banner (os_fixed "ffmpeg version 4-static" "" 0)
             "ffmpeg" (Completed "ffmpeg version 4-static" "" 0) "" "4").
    + reflexivity.
    + vm_compute. reflexivity.
    + left. reflexivity.
    + split; reflexivity.
  - apply (major_only_banner (os_fixed "" "ffmpeg version n5" 0)
             "ffmpeg" (Completed "" "ffmpeg version n5" 0) "n" "5").
    + reflexivity.
    + vm_compute. reflexivity.
    + right. exists "n"%char. split; reflexivity.
    + split; reflexivity.
Defined.

Lemma version_check_on_leading_banner_witness :
  outcome (has_correct_version
             (os_fixed
                "ffmpeg version 3.4.8 ffmpeg version 4.4 Copyright (c) 2000-2021"
                "" 0)
             false "ffmpeg") = Return (above_midpoint "3" "4").
Proof.
  apply (version_check_on_leading_banner
           (os_fixed
              "ffmpeg version 3.4.8 ffmpeg version 4.4 Copyright (c) 2000-2021"
              "" 0)
           "ffmpeg"
           (Completed
              "ffmpeg version 3.4.8 ffmpeg version 4.4 Copyright (c) 2000-2021"
              "" 0)
           "" "3" "4" ".8 ffmpeg version 4.4 Copyright (c) 2000-2021").
  - reflexivity.
  - reflexivity.
  - intros c r [= <- _]. reflexivity.
  - left. reflexivity.
  - split; reflexivity.
  - split; reflexivity.
Defined.

(** X5: the check is monotone in the version: when a banner [X1.Y1] is
    accepted, every banner [X2.Y2] with [X1.Y1 <= X2.Y2] is accepted too;
    the rounding of [float] never puts a newer version below an older
    one. *)
Theorem newer_version_accepted
    os1 path1 proc1 l1 X1 Y1 os2 path2 proc2 l2 X2 Y2 :
  os1 [path1; "-version"] = Runs proc1 ->
  Re.search version_re (stdout proc1 ++ stderr proc1) = Some (banner l1 X1 Y1) ->
  optional_letter l1 -> numeric_token X1 -> numeric_token Y1 ->
  os2 [path2; "-version"] = Runs proc2 ->
  Re.search version_re (stdout proc2 ++ stderr proc2) = Some (banner l2 X2 Y2) ->
  optional_letter l2 -> numeric_token X2 -> numeric_token Y2 ->
  decimal_num X1 Y1 * decimal_den Y2 <= decimal_num X2 Y2 * decimal_den Y1 ->
  outcome (has_correct_version os1 false path1) = Return true ->
  outcome (has_correct_version os2 false path2) = Return true.
Proof.
  intros H1 S1 L1 TX1 TY1 H2 S2 L2 TX2 TY2 Le.
  rewrite (version_check_on_banner os1 path1 proc1 l1 X1 Y1 H1 S1 L1 TX1 TY1).
  rewrite (version_check_on_banner os2 path2 proc2 l2 X2 Y2 H2 S2 L2 TX2 TY2).
  intros [= A]. f_equal. revert A. unfold above_midpoint, midpoint_num.
  pose proof (decimal_den_pos Y1). pose proof (decimal_den_pos Y2).
  change (2 ^ 51) with 2251799813685248.
  rewrite !Z.ltb_lt. intros A.
  apply (Z.mul_lt_mono_pos_r (decimal_den Y1)); [assumption|].
  nia.
Qed.

Lemma newer_version_accepted_witness :
  outcome (has_correct_version (os_fixed "ffmpeg version n6.0" "" 0)
             false "ffmpeg") = Return true.
Proof.
  apply (newer_version_accepted
           (os_fixed "ffmpeg version 4.4" "" 0) "ffmpeg"
           (Completed "ffmpeg version 4.4" "" 0) "" "4" "4"
           (os_fixed "ffmpeg version n6.0" "" 0) "ffmpeg"
           (Completed "ffmpeg version n6.0" "" 0) "n" "6" "0").
  - reflexivity.
  - reflexivity.
  - left. reflexivity.
  - split; reflexivity.
  - split; reflexivity.
  - reflexivity.
  - reflexivity.
  - right. exists "n"%char. split; reflexivity.
  - split; reflexivity.
  - split; reflexivity.
  - vm_compute. discriminate.
  - vm_compute. reflexivity.
Defined.

(** ** The conversion driver *)

(** X6: [convert] returns [True] only after starting one process that
    exited with 0, nothing printed; it returns [False] only after starting
    one process that exited otherwise, with exactly one message printed;
    and when it raises, nothing has been printed and at most one process
    has been started.  So no result comes without a process, no failure is
    silent, and nothing is tried twice. *)
Theorem convert_ends
    os (Path : Type) (absolute : Path -> string) src dst tool output_format :
  match outcome (convert os absolute src dst tool output_format) with
  | Return true =>
      exists argv proc,
        os argv = Runs proc /\ returncode proc = 0
        /\ events (convert os absolute src dst tool output_format)
           = [Spawn argv]
  | Return false =>
      exists argv proc msg,
        os argv = Runs proc /\ returncode proc <> 0
        /\ events (convert os absolute src dst tool output_format)
           = [Spawn argv; Stderr (Text msg)]
  | Raise e =>
      events (convert os absolute src dst tool output_format) = []
      \/ exists argv,
           events (convert os absolute src dst tool output_format)
           = [Spawn argv]
  end.
Proof.
  assert (K : forall fmt, output_format = option_map format_name fmt ->
              match outcome (convert os absolute src dst tool output_format)
              with
              | Return true =>
                  exists argv proc,
                    os argv = Runs proc /\ returncode proc = 0
                    /\ events (convert os absolute src dst tool output_format)
                       = [Spawn argv]
              | Return false =>
                  exists argv proc msg,
                    os argv = Runs proc /\ returncode proc <> 0
                    /\ events (convert os absolute src dst tool output_format)
                       = [Spawn argv; Stderr (Text msg)]
              | Raise e =>
                  events (convert os absolute src dst tool output_format) = []
                  \/ exists argv,
                       events (convert os absolute src dst tool output_format)
                       = [Spawn argv]
              end).
  { intros fmt ->. rewrite convert_run. cbv zeta.
    set (argv := tool_name tool :: _).
    destruct (os argv) as [proc|e|e] eqn:E; cbn; [|eauto..].
    destruct (Z.eqb_spec (returncode proc) 0) as [Z|Z]; cbn.
    - exists argv, proc. auto.
    - exists argv, proc. eexists. auto. }
  destruct output_format as [f|].
  - destruct (in_dec string_dec f format_names) as [I|I].
    + destruct (format_names_inv f I) as [fmt ->].
      apply (K (Some fmt)). reflexivity.
    + unfold convert. rewrite (formats_unknown Path absolute src f I).
      left. reflexivity.
  - apply (K None). reflexivity.
Qed.

(** X7: leaving out the tool path and the format is the same as asking for
    [ffmpeg] and [mp3]: the two calls start the same process, print the same
    and return the same. *)
Theorem convert_defaults
    os (Path : Type) (absolute : Path -> string) src dst :
  convert os absolute src dst None None
  = convert os absolute src dst (Some "ffmpeg") (Some "mp3").
Proof.
  change (@None string) with (option_map format_name None) at 2.
  change (Some "mp3") with (option_map format_name (Some Mp3)).
  now rewrite !convert_run.
Qed.

(** X8: the failure message determines the captured bytes: two processes
    whose messages agree (same exit code, same arguments) have written the
    same bytes, stdout followed by stderr.  The literal in the message can
    be read back, so no captured byte is lost. *)
Theorem message_determines_output code args p1 p2 :
  error_message code args (diagnostic p1)
  = error_message code args (diagnostic p2) ->
  stdout p1 ++ stderr p1 = stdout p2 ++ stderr p2.
Proof.
  intros E. apply diagnostic_inj. unfold error_message in E.
  repeat (apply append_inv_l in E).
  now apply (append_inv_r (nl ++ "=====" ++ nl)).
Qed.

Lemma message_determines_output_witness :
  stdout (Completed "Invalid " "data" 1) ++ stderr (Completed "Invalid " "data" 1)
  = stdout (Completed "" "Invalid data" 1) ++ stderr (Completed "" "Invalid data" 1).
Proof.
  apply (message_determines_output 1 ["-i"; "/music/a.webm"]
           (Completed "Invalid " "data" 1) (Completed "" "Invalid data" 1)).
  reflexivity.
Defined.
